(** * Response contract layer of the two-agent design debate

    A shallow embedding of the format validator and of the design
    extractors that the repository's test scripts carry
    (src/test_validation.py, src/demonstrate_fixes.py,
    src/test_format_enforcement.py), with the properties the
    specification states about them. *)

From Stdlib Require Import List NArith ZArith Arith Bool Lia.
From Stdlib Require Import Strings.String Strings.Ascii Numbers.DecimalString.
Import ListNotations.

(** ** Python strings

    A Python [str] is a sequence of Unicode code points.  A code point is
    a number, a string a list of them. *)

Module PyStr.

Definition char := N.
Definition str := list char.

(** The code points of an ASCII literal. *)
Definition py (s : string) : str :=
  map N_of_ascii (list_ascii_of_string s).

Definition nl : char := 10%N.
Definition cr : char := 13%N.

(** [str.isspace] on one code point: the table of CPython's
    [_PyUnicode_IsWhitespace], which [strip], [lstrip] and [rstrip] without
    argument use. *)
Definition is_space (c : char) : bool :=
  match c with
  | 9 | 10 | 11 | 12 | 13 => true
  | 28 | 29 | 30 | 31 | 32 => true
  | 133 | 160 | 5760 => true
  | 8192 | 8193 | 8194 | 8195 | 8196 | 8197
  | 8198 | 8199 | 8200 | 8201 | 8202 => true
  | 8232 | 8233 | 8239 | 8287 | 12288 => true
  | _ => false
  end%N.

(** [s.lstrip()] *)
Fixpoint lstrip (s : str) : str :=
  match s with
  | [] => []
  | c :: rest => if is_space c then lstrip rest else s
  end.

(** [s.rstrip()] *)
Definition rstrip (s : str) : str := rev (lstrip (rev s)).

(** [s.strip()]: the left end first, then the right end down to it. *)
Definition strip (s : str) : str := rstrip (lstrip s).

(** [s.startswith(p)] *)
Fixpoint startswith (p s : str) : bool :=
  match p, s with
  | [], _ => true
  | _ :: _, [] => false
  | a :: p', b :: s' => N.eqb a b && startswith p' s'
  end.

(** Truth value of a string in a condition: non-empty. *)
Definition truthy (s : str) : bool :=
  match s with [] => false | _ :: _ => true end.

(** [s.split(sep)] for a one-character separator: always at least one
    piece. *)
Fixpoint split (sep : char) (s : str) : list str :=
  match s with
  | [] => [[]]
  | c :: rest =>
      if N.eqb c sep then [] :: split sep rest
      else match split sep rest with
           | l :: ls => (c :: l) :: ls
           | [] => [[c]]
           end
  end.

(** [sep.join(pieces)] *)
Fixpoint join (sep : str) (pieces : list str) : str :=
  match pieces with
  | [] => []
  | [p] => p
  | p :: rest => p ++ sep ++ join sep rest
  end.

(** The text before and after the first occurrence of [pat] in [s], if
    there is one. *)
Fixpoint cut (pat s : str) {struct s} : option (str * str) :=
  if startswith pat s then Some ([], skipn (List.length pat) s)
  else match s with
       | [] => None
       | c :: rest =>
           match cut pat rest with
           | Some (before, after) => Some (c :: before, after)
           | None => None
           end
       end.

(** [pat in s] *)
Definition contains (pat s : str) : bool :=
  match cut pat s with Some _ => true | None => false end.

(** [s.split(pat, 1)] *)
Definition split_once (pat s : str) : list str :=
  match cut pat s with
  | Some (before, after) => [before; after]
  | None => [s]
  end.

(** [any(f(x) for x in xs)] *)
Definition any {A} (f : A -> bool) (xs : list A) : bool := existsb f xs.

(** The decimal digits of a natural number, as an f-string prints it. *)
Definition str_of_nat (n : nat) : str :=
  py (NilZero.string_of_uint (Nat.to_uint n)).

End PyStr.

Import PyStr.

(** ** The validator

    [validate_response_format] of src/test_validation.py; the copies in
    demonstrate_fixes.py, test_format_enforcement.py, test_end_to_end.py
    and generate_test_examples.py have the same body. *)

Definition design_token : str := py "## Design".

(** The entry appended to [preamble_lines] for line [i]:
    [f"  Line {i+1}: {line[:80]}"]. *)
Definition preamble_entry (i : nat) (line : str) : str :=
  py "  Line " ++ str_of_nat (i + 1) ++ py ": " ++ firstn 80 line.

(** The [for i, line in enumerate(lines)] loop: [i] is the index of the
    line at the head, [preamble_lines] what has been appended so far.  The
    result is [design_line_num] and [preamble_lines] after the loop. *)
Fixpoint find_design (lines : list str) (i : nat)
    (preamble_lines : list str) : option nat * list str :=
  match lines with
  | [] => (None, preamble_lines)
  | line :: rest =>
      if startswith design_token (strip line) then (Some i, preamble_lines)
      else if truthy (strip line)
           then find_design rest (S i)
                  (preamble_lines ++ [preamble_entry i line])
           else find_design rest (S i) preamble_lines
  end.

Definition preamble_message (agent_name : str) (design_line_num : nat)
    (preamble : str) : str :=
  agent_name ++ py " violated format requirements." ++ [nl; nl]
  ++ py "Forbidden preamble detected before '## Design' (found at line "
  ++ str_of_nat (design_line_num + 1) ++ py "):" ++ [nl]
  ++ preamble ++ [nl; nl]
  ++ py "The response will be automatically cleaned.".

Definition missing_message (agent_name : str) : str :=
  agent_name ++ py " response missing '## Design' section header.".

Definition validate_response_format (response agent_name : str)
  : bool * str :=
  let stripped := lstrip response in
  if negb (startswith design_token stripped) then
    let lines := split nl response in
    match find_design lines 0 [] with
    | (Some design_line_num, preamble_lines) =>
        let preamble := join [nl] (firstn 5 preamble_lines) in
        (false, preamble_message agent_name design_line_num preamble)
    | (None, _) => (false, missing_message agent_name)
    end
  else (true, []).

(** ** The extractor that cuts at meta sections (src/demonstrate_fixes.py) *)

Module DemonstrateFixes.

Definition design_start_patterns : list str :=
  [ py "## Design" ++ [nl];
    py "### Design" ++ [nl];
    py "## Design" ++ [cr; nl];
    py "### Design" ++ [cr; nl] ].

(** The [for pattern in design_start_patterns] loop: the first pattern that
    occurs in the response decides, and the response is rebound to the
    pattern followed by what comes after its first occurrence. *)
Fixpoint rebind_response (patterns : list str) (response : str) : str :=
  match patterns with
  | [] => response
  | pattern :: rest =>
      if contains pattern response
      then pattern ++ nth 1 (split_once pattern response) []
      else rebind_response rest response
  end.

Definition meta_sections : list str :=
  [ py "Rationale"; py "What I Changed"; py "What I Kept";
    py "What I Incorporated"; py "Open Questions"; py "Convergence";
    py "Prompt for"; py "Remaining"; py "What I Improved"; py "PROMPT_FOR" ].

(** First test of the loop body. *)
Definition starts_design (line : str) : bool :=
  startswith (py "### Design") (strip line)
  || startswith (py "## Design") (strip line).

(** Second test of the loop body, without [in_design]. *)
Definition starts_heading (line : str) : bool :=
  startswith (py "### ") (strip line) || startswith (py "## ") (strip line).

Definition names_meta (line : str) : bool :=
  any (fun meta => contains meta line) meta_sections.

(** The [for line in lines] loop, with [in_design] and [design_lines] as
    they stand before the line at the head; the result is [design_lines]
    after the loop. *)
Fixpoint collect (lines : list str) (in_design : bool)
    (design_lines : list str) : list str :=
  match lines with
  | [] => design_lines
  | line :: rest =>
      if starts_design line then collect rest true (design_lines ++ [line])
      else if in_design && starts_heading line then
        if names_meta line then design_lines
        else collect rest in_design (design_lines ++ [line])
      else if in_design then collect rest in_design (design_lines ++ [line])
      else collect rest in_design design_lines
  end.

Definition extract_design_section (response : str) : str :=
  let response := rebind_response design_start_patterns response in
  let lines := split nl response in
  let design_lines := collect lines false [] in
  let design := strip (join [nl] design_lines) in
  if truthy design then design else response.

End DemonstrateFixes.

(** ** The extractor that keeps everything from the header on
    (src/test_format_enforcement.py; test_end_to_end.py and
    generate_test_examples.py repeat it) *)

Module TestFormatEnforcement.

(** The [for i, line in enumerate(lines)] loop; the result is
    [design_start]. *)
Fixpoint find_start (lines : list str) (i : nat) : option nat :=
  match lines with
  | [] => None
  | line :: rest =>
      if startswith design_token (strip line) then Some i
      else find_start rest (S i)
  end.

Definition extract_design_section (response : str) : str :=
  let lines := split nl response in
  match find_start lines 0 with
  | Some design_start => join [nl] (skipn design_start lines)
  | None => response
  end.

End TestFormatEnforcement.

(** ** Convergence

    [debate.py], which defines [AgentResponse], [ConvergenceStatus] and
    [check_convergence], is not among the sources; src/mock_test.py and
    src/test_debate.py import and call them. *)

Module Debate.

Inductive Signal := PROPOSING_FINAL | ACCEPTING_FINAL | ITERATING.

Inductive ConvergenceStatus := DEBATING | CONVERGING | CONSENSUS.

(** The fields with which src/mock_test.py builds an [AgentResponse]. *)
Record AgentResponse := {
  content : str;
  prompt_for_other : str;
  convergence_signal : Signal;
  raw_response : str
}.

(** Modelled from the spec: [check_convergence] of [debate.py], which is
    missing from the sources; the four rows of the table of section 4.4,
    in their order. *)
Definition check_convergence (a b : AgentResponse) : ConvergenceStatus :=
  match convergence_signal a, convergence_signal b with
  | (PROPOSING_FINAL | ACCEPTING_FINAL), (PROPOSING_FINAL | ACCEPTING_FINAL) =>
      CONSENSUS
  | (PROPOSING_FINAL | ACCEPTING_FINAL), ITERATING => CONVERGING
  | ITERATING, (PROPOSING_FINAL | ACCEPTING_FINAL) => CONVERGING
  | ITERATING, ITERATING => DEBATING
  end.

End Debate.

(** ** What the scripts print

    Each [print] call adds one text to the output; the line break that
    [print] writes after it is not part of the text, and [print()] adds
    the empty text. *)

Definition Output := list str.

(** ['=' * 70] *)
Definition rule : str := repeat 61%N 70.

(** An integer as an f-string prints it. *)
Definition str_of_Z (z : Z) : str :=
  py (NilZero.string_of_int (Z.to_int z)).

(** [len(s)] *)
Definition len (s : str) : Z := Z.of_nat (List.length s).

(** ** The diagnosis script (src/diagnose_format.py) *)

Module DiagnoseFormat.


Definition design_patterns : list str :=
  [ py "## Design" ++ [nl]; py "### Design" ++ [nl];
    py "## Design" ++ [cr; nl] ].

(** The [for pattern in design_patterns] loop of
    [extract_and_clean_design]. *)
Fixpoint clean_from (patterns : list str) (response_text : str) : str :=
  match patterns with
  | [] => response_text
  | pattern :: rest =>
      if contains pattern response_text then
        let parts := split_once pattern response_text in
        if (1 <? List.length parts)%nat then pattern ++ nth 1 parts []
        else clean_from rest response_text
      else clean_from rest response_text
  end.

Definition extract_and_clean_design (response_text : str) : str :=
  clean_from design_patterns response_text.

End DiagnoseFormat.

(** ** One simulated round (src/test_end_to_end.py)

    The file has its own copies of the validator and of the extractor of
    src/test_format_enforcement.py, with the same bodies. *)

Module TestEndToEnd.

Definition simulate_debate_round (agent_name response : str)
  : Output * (bool * str) :=
  let out := [ nl :: rule;
               [129302%N] ++ py " " ++ agent_name ++ py " responding...";
               rule ] in
  let (is_valid, error_msg) :=
    validate_response_format response agent_name in
  if negb is_valid then
    let out := out ++ [ [nl; 9888%N; 65039%N]
                          ++ py "  FORMAT VIOLATION DETECTED:";
                        error_msg;
                        [] ] in
    let cleaned := TestFormatEnforcement.extract_design_section response in
    let out := out ++ [ [10003%N] ++ py " Response automatically cleaned";
                        py "  Removed "
                          ++ str_of_Z (len response - len cleaned)
                          ++ py " characters of preamble" ] in
    let (is_clean_valid, _) :=
      validate_response_format cleaned agent_name in
    if is_clean_valid then
      (out ++ [ py "  " ++ [10003%N]
                  ++ py " Cleaned response is now compliant" ],
       (true, cleaned))
    else
      (out ++ [ py "  " ++ [10007%N]
                  ++ py " ERROR: Cleaned response still invalid!" ],
       (false, cleaned))
  else
    (out ++ [ [10003%N] ++ py " Response format is compliant" ],
     (true, response)).

End TestEndToEnd.

(** ** The analysis of test results (src/iterative_test_fix.py) *)

Module IterativeTestFix.

Section Analysis.

(** [pathlib.Path] and its [name] attribute. *)
Variable Path : Type.
Variable name : Path -> str.

(** A [TestResult] object with its four attributes. *)
Record TestResult := {
  test_name : str;
  passed : bool;
  details : str;
  session_dir : option Path
}.

(** An entry of [issues]: the keys ['test'], ['details'], ['session']. *)
Record Issue := {
  issue_test : str;
  issue_details : str;
  issue_session : option str
}.

(** The dictionary [analyze_results] returns: the keys ['passed'],
    ['failed'], ['total'], ['issues']. *)
Record Analysis := {
  analysis_passed : nat;
  analysis_failed : nat;
  analysis_total : nat;
  analysis_issues : list Issue
}.

(** The [for result in results] loop, with [issues] as it stands. *)
Fixpoint collect_issues (results : list TestResult) (issues : list Issue)
  : list Issue :=
  match results with
  | [] => issues
  | result :: rest =>
      if negb (passed result) then
        collect_issues rest
          (issues ++ [ {| issue_test := test_name result;
                          issue_details := details result;
                          issue_session :=
                            match session_dir result with
                            | Some d => Some (name d)
                            | None => None
                            end |} ])
      else collect_issues rest issues
  end.

Definition analyze_results (results : list TestResult) : Analysis :=
  let n_passed :=
    list_sum (map (fun _ => 1) (filter (fun r => passed r) results)) in
  let n_failed :=
    list_sum (map (fun _ => 1) (filter (fun r => negb (passed r)) results)) in
  let issues := collect_issues results [] in
  {| analysis_passed := n_passed;
     analysis_failed := n_failed;
     analysis_total := List.length results;
     analysis_issues := issues |}.

End Analysis.

Arguments test_name {Path} _.
Arguments passed {Path} _.
Arguments details {Path} _.
Arguments session_dir {Path} _.
Arguments collect_issues {Path} name results issues.
Arguments analyze_results {Path} name results.

End IterativeTestFix.

(** * Vocabulary of the statements

    Nothing below is part of the program: these are the notions in which
    its properties are stated and proved. *)

(** A text made of white space only. *)
Definition blank (s : str) : bool := forallb is_space s.

(** [lstrip] and [rstrip] of a text given by its lines. *)
Fixpoint lstrip_lines (ls : list str) : list str :=
  match ls with
  | [] => []
  | l :: rest =>
      if blank l
      then match rest with [] => [[]] | _ :: _ => lstrip_lines rest end
      else lstrip l :: rest
  end.

Fixpoint rstrip_lines (ls : list str) : list str :=
  match ls with
  | [] => []
  | l :: rest =>
      if forallb blank rest then [rstrip l] else l :: rstrip_lines rest
  end.

(** The line at which [DemonstrateFixes.collect] breaks once it is in the
    design: a heading that names a meta section and that the first test
    of the loop has not taken as a Design line. *)
Definition is_stop (line : str) : bool :=
  negb (DemonstrateFixes.starts_design line)
  && DemonstrateFixes.starts_heading line
  && DemonstrateFixes.names_meta line.

(** The lines in front of the first stop line. *)
Fixpoint keep (lines : list str) : list str :=
  match lines with
  | [] => []
  | line :: rest => if is_stop line then [] else line :: keep rest
  end.

(** The numbered lines of a preamble that are not blank, as the validator
    lists them. *)
Definition numbered_nonblank (pre : list str) : list (nat * str) :=
  filter (fun e => negb (blank (snd e)))
    (combine (seq 0 (List.length pre)) pre).

(** The two start patterns that can decide the rebinding of the response:
    each of the other two contains one of them. *)
Definition header_lf : str := py "## Design" ++ [nl].
Definition header_crlf : str := py "## Design" ++ [cr; nl].

(** [s.endswith(p)], in which the preamble of a response is described. *)
Definition endswith (p s : str) : bool := startswith (rev p) (rev s).

(** * Properties *)

(** Closes [~ In c literal] for a character that the literal lacks. *)
Ltac not_in_literal :=
  let F := fresh "F" in
  cbn; intros F; repeat (destruct F as [F|F]; [discriminate|]); exact F.

(** ** Prefixes *)

Lemma startswith_app (p x : str) : startswith p (p ++ x) = true.
Proof.
  induction p as [|a p IH]; simpl; [reflexivity|].
  now rewrite N.eqb_refl.
Qed.

Lemma startswith_inv (p s : str) :
  startswith p s = true -> exists x, s = p ++ x.
Proof.
  revert s; induction p as [|a p IH]; intros s H.
  - now exists s.
  - destruct s as [|b s]; simpl in H; [discriminate|].
    apply andb_true_iff in H as [Hab Hps].
    apply N.eqb_eq in Hab; subst b.
    destruct (IH _ Hps) as [x ->]. now exists x.
Qed.

Lemma startswith_app_l (p a b : str) :
  startswith p a = true -> startswith p (a ++ b) = true.
Proof.
  intros H. destruct (startswith_inv _ _ H) as [x ->].
  rewrite <- app_assoc. apply startswith_app.
Qed.

(** A prefix without the separator that is found in front of
    [a ++ sep :: b] lies within [a]. *)
Lemma startswith_before_sep (sep : char) (p a b : str) :
  ~ In sep p -> startswith p (a ++ sep :: b) = true -> startswith p a = true.
Proof.
  revert a; induction p as [|c p IH]; intros a Hp H; [reflexivity|].
  destruct a as [|d a]; simpl in *.
  - apply andb_true_iff in H as [Hc _]. apply N.eqb_eq in Hc.
    exfalso. apply Hp. now left.
  - apply andb_true_iff in H as [Hc H]. rewrite Hc; simpl.
    apply IH; [|exact H]. intros Hin. apply Hp. now right.
Qed.

(** ** Whitespace at the two ends *)

Lemma lstrip_blank (s : str) : blank s = true -> lstrip s = [].
Proof.
  induction s as [|c s IH]; simpl; [reflexivity|].
  intros H. apply andb_true_iff in H as [Hc Hs]. rewrite Hc. auto.
Qed.

Lemma lstrip_app (a b : str) :
  lstrip (a ++ b) = if blank a then lstrip b else lstrip a ++ b.
Proof.
  induction a as [|c a IH]; simpl; [reflexivity|].
  destruct (is_space c); simpl; [exact IH | reflexivity].
Qed.

Lemma lstrip_split (s : str) :
  exists w, s = w ++ lstrip s /\ blank w = true.
Proof.
  induction s as [|c s [w [Hs Hw]]]; simpl.
  - now exists [].
  - destruct (is_space c) eqn:Hc.
    + exists (c :: w); simpl. rewrite Hc, Hw.
      split; [now f_equal | reflexivity].
    + now exists [].
Qed.

Lemma lstrip_fixed (c : char) (s : str) :
  is_space c = false -> lstrip (c :: s) = c :: s.
Proof. intros H; simpl; now rewrite H. Qed.

Lemma lstrip_head (s : str) (c : char) (t : str) :
  lstrip s = c :: t -> is_space c = false.
Proof.
  induction s as [|d s IH]; simpl; [discriminate|].
  destruct (is_space d) eqn:Hd; [exact IH|].
  intros H; injection H as -> _. exact Hd.
Qed.

Lemma blank_app (a b : str) : blank (a ++ b) = blank a && blank b.
Proof. apply forallb_app. Qed.

Lemma blank_rev (s : str) : blank (rev s) = blank s.
Proof.
  induction s as [|c s IH]; simpl; [reflexivity|].
  rewrite blank_app, IH; simpl. rewrite andb_true_r. apply andb_comm.
Qed.

Lemma blank_lstrip (s : str) : blank (lstrip s) = blank s.
Proof.
  induction s as [|c s IH]; simpl; [reflexivity|].
  destruct (is_space c) eqn:Hc; simpl; [exact IH | now rewrite Hc].
Qed.

Lemma rstrip_app (a b : str) :
  rstrip (a ++ b) = if blank b then rstrip a else a ++ rstrip b.
Proof.
  unfold rstrip. rewrite rev_app_distr, lstrip_app, blank_rev.
  destruct (blank b); [reflexivity|].
  now rewrite rev_app_distr, rev_involutive.
Qed.

Lemma rstrip_blank (s : str) : blank s = true -> rstrip s = [].
Proof.
  intros H. unfold rstrip. rewrite lstrip_blank; [reflexivity|].
  now rewrite blank_rev.
Qed.

Lemma rstrip_split (s : str) :
  exists w, s = rstrip s ++ w /\ blank w = true.
Proof.
  destruct (lstrip_split (rev s)) as [w [Hs Hw]].
  exists (rev w). split; [|now rewrite blank_rev].
  unfold rstrip. rewrite <- rev_app_distr, <- Hs. now rewrite rev_involutive.
Qed.

Lemma blank_rstrip (s : str) : blank (rstrip s) = blank s.
Proof. unfold rstrip. now rewrite blank_rev, blank_lstrip, blank_rev. Qed.

Lemma rstrip_cons (c : char) (s : str) :
  rstrip (c :: s) = if blank (c :: s) then [] else c :: rstrip s.
Proof.
  change (c :: s) with ([c] ++ s) at 1. rewrite rstrip_app.
  simpl. destruct (is_space c) eqn:Hc; simpl.
  - destruct (blank s) eqn:Hs; [|reflexivity].
    unfold rstrip; simpl. now rewrite Hc.
  - destruct (blank s) eqn:Hs; [|reflexivity].
    rewrite (rstrip_blank _ Hs). unfold rstrip; simpl. now rewrite Hc.
Qed.

(** Trimming on the right keeps the last character that is not a space. *)
Lemma rstrip_keep (a : str) (c : char) (b : str) :
  is_space c = false -> rstrip ((a ++ [c]) ++ b) = (a ++ [c]) ++ rstrip b.
Proof.
  intros Hc. rewrite rstrip_app. destruct (blank b) eqn:Hb; [|reflexivity].
  rewrite (rstrip_blank _ Hb), app_nil_r.
  rewrite rstrip_app. unfold blank, rstrip; simpl.
  now rewrite Hc.
Qed.

Lemma strip_blank (s : str) : blank s = true -> strip s = [].
Proof. intros H. unfold strip. now rewrite (lstrip_blank _ H). Qed.

Lemma truthy_blank (s : str) : truthy s = false -> s = [].
Proof. now destruct s. Qed.

Lemma truthy_strip (s : str) : truthy (strip s) = negb (blank s).
Proof.
  destruct (blank s) eqn:Hs; [now rewrite strip_blank|].
  unfold strip. destruct (rstrip (lstrip s)) eqn:E; [|reflexivity].
  assert (H : blank (rstrip (lstrip s)) = true) by now rewrite E.
  rewrite blank_rstrip, blank_lstrip in H. congruence.
Qed.

Lemma strip_skip_l (w s : str) : blank w = true -> strip (w ++ s) = strip s.
Proof. intros H. unfold strip. now rewrite lstrip_app, H. Qed.

Lemma strip_skip_r (s w : str) : blank w = true -> strip (s ++ w) = strip s.
Proof.
  intros H. unfold strip. rewrite lstrip_app.
  destruct (blank s) eqn:Hs.
  - now rewrite (lstrip_blank _ H), (lstrip_blank _ Hs).
  - now rewrite rstrip_app, H.
Qed.

Lemma strip_lstrip (s : str) : strip (lstrip s) = strip s.
Proof.
  destruct (lstrip_split s) as [w [Hs Hw]].
  rewrite Hs at 2. now rewrite strip_skip_l.
Qed.

Lemma strip_rstrip (s : str) : strip (rstrip s) = strip s.
Proof.
  destruct (rstrip_split s) as [w [Hs Hw]].
  rewrite Hs at 2. now rewrite strip_skip_r.
Qed.

Lemma strip_idem (s : str) : strip (strip s) = strip s.
Proof. unfold strip at 2. now rewrite strip_rstrip, strip_lstrip. Qed.

(** What [strip] returns has no space at its head. *)
Lemma lstrip_strip (s : str) : lstrip (strip s) = strip s.
Proof.
  unfold strip. destruct (lstrip s) as [|c t] eqn:E; [reflexivity|].
  pose proof (lstrip_head s c t E) as Hc.
  rewrite rstrip_cons; simpl. now rewrite Hc; simpl; rewrite Hc.
Qed.

(** A line whose trimmed form begins with [p] begins with [p] once its
    left end is trimmed. *)
Lemma startswith_strip_lstrip (p s : str) :
  startswith p (strip s) = true -> startswith p (lstrip s) = true.
Proof.
  intros H. unfold strip in H.
  destruct (rstrip_split (lstrip s)) as [w [Hs _]].
  rewrite Hs. now apply startswith_app_l.
Qed.

(** ** Lines *)

Lemma join_cons (sep : char) (l m : str) (ls : list str) :
  join [sep] (l :: m :: ls) = l ++ sep :: join [sep] (m :: ls).
Proof. reflexivity. Qed.

Lemma split_ne (sep : char) (s : str) : split sep s <> [].
Proof.
  destruct s as [|c s]; simpl; [discriminate|].
  destruct (N.eqb c sep); [discriminate|].
  destruct (split sep s); discriminate.
Qed.

Lemma join_split (sep : char) (s : str) : join [sep] (split sep s) = s.
Proof.
  induction s as [|c s IH]; simpl; [reflexivity|].
  destruct (N.eqb_spec c sep) as [->|Hc].
  - destruct (split sep s) as [|l ls] eqn:E; [now apply split_ne in E|].
    rewrite join_cons, IH. reflexivity.
  - destruct (split sep s) as [|l ls] eqn:E; [now apply split_ne in E|].
    destruct ls as [|m ls]; simpl in *; now rewrite <- IH.
Qed.

Lemma split_nosep (sep : char) (a : str) : ~ In sep a -> split sep a = [a].
Proof.
  induction a as [|c a IH]; intros H; simpl; [reflexivity|].
  destruct (N.eqb_spec c sep) as [->|Hc]; [exfalso; apply H; now left|].
  rewrite IH; [reflexivity|]. intros Hin; apply H; now right.
Qed.

Lemma split_app_sep (sep : char) (a b : str) :
  ~ In sep a -> split sep (a ++ sep :: b) = a :: split sep b.
Proof.
  induction a as [|c a IH]; intros H; simpl.
  - now rewrite N.eqb_refl.
  - destruct (N.eqb_spec c sep) as [->|Hc]; [exfalso; apply H; now left|].
    rewrite IH; [reflexivity|]. intros Hin; apply H; now right.
Qed.

Lemma split_join (sep : char) (ls : list str) :
  ls <> [] -> Forall (fun l => ~ In sep l) ls ->
  split sep (join [sep] ls) = ls.
Proof.
  induction ls as [|l ls IH]; intros Hne H; [congruence|].
  inversion H as [|? ? Hl Hls]; subst.
  destruct ls as [|m ls].
  - simpl. now apply split_nosep.
  - rewrite join_cons, split_app_sep by assumption.
    f_equal. apply IH; [discriminate | assumption].
Qed.

Lemma split_lines_nosep (sep : char) (s : str) :
  Forall (fun l => ~ In sep l) (split sep s).
Proof.
  induction s as [|c s IH]; simpl.
  - constructor; [intros [] | constructor].
  - destruct (N.eqb_spec c sep) as [->|Hc].
    + constructor; [intros [] | exact IH].
    + destruct (split sep s) as [|l ls];
        [repeat constructor; intros [H|[]]; congruence|].
      inversion IH as [|? ? Hl Hls]; subst.
      constructor; [|assumption]. intros [H|H]; [congruence | auto].
Qed.

Lemma blank_join (ls : list str) : blank (join [nl] ls) = forallb blank ls.
Proof.
  induction ls as [|l ls IH]; [reflexivity|].
  destruct ls as [|m ls].
  - simpl. now rewrite andb_true_r.
  - rewrite join_cons, blank_app.
    change (blank (nl :: join [nl] (m :: ls)))
      with (blank (join [nl] (m :: ls))).
    rewrite IH. reflexivity.
Qed.

Lemma lstrip_lines_ne (ls : list str) : ls <> [] -> lstrip_lines ls <> [].
Proof.
  induction ls as [|l ls IH]; intros H; [congruence|]. simpl.
  destruct (blank l); [|discriminate].
  destruct ls; [discriminate | apply IH; discriminate].
Qed.

Lemma rstrip_lines_ne (ls : list str) : ls <> [] -> rstrip_lines ls <> [].
Proof.
  destruct ls as [|l ls]; intros H; [congruence|]. simpl.
  destruct (forallb blank ls); discriminate.
Qed.

Lemma lstrip_join (ls : list str) :
  ls <> [] -> lstrip (join [nl] ls) = join [nl] (lstrip_lines ls).
Proof.
  induction ls as [|l ls IH]; intros Hne; [congruence|].
  destruct ls as [|m ls].
  - simpl. destruct (blank l) eqn:Hl; [now apply lstrip_blank | reflexivity].
  - rewrite join_cons, lstrip_app.
    change (lstrip_lines (l :: m :: ls))
      with (if blank l then lstrip_lines (m :: ls) else lstrip l :: m :: ls).
    destruct (blank l); [|reflexivity].
    change (lstrip (nl :: join [nl] (m :: ls)))
      with (lstrip (join [nl] (m :: ls))).
    apply IH. discriminate.
Qed.

Lemma rstrip_join (ls : list str) :
  ls <> [] -> rstrip (join [nl] ls) = join [nl] (rstrip_lines ls).
Proof.
  induction ls as [|l ls IH]; intros Hne; [congruence|].
  destruct ls as [|m ls]; [reflexivity|].
  rewrite join_cons, rstrip_app.
  change (blank (nl :: join [nl] (m :: ls))) with (blank (join [nl] (m :: ls))).
  rewrite blank_join.
  change (rstrip_lines (l :: m :: ls))
    with (if forallb blank (m :: ls) then [rstrip l]
          else l :: rstrip_lines (m :: ls)).
  destruct (forallb blank (m :: ls)) eqn:Hb; [reflexivity|].
  rewrite rstrip_cons.
  change (blank (nl :: join [nl] (m :: ls))) with (blank (join [nl] (m :: ls))).
  rewrite blank_join, Hb, IH by discriminate.
  destruct (rstrip_lines (m :: ls)) eqn:E;
    [now apply rstrip_lines_ne in E | reflexivity].
Qed.

(** ** Occurrences *)

Lemma cut_unfold (p s : str) :
  cut p s =
  if startswith p s then Some ([], skipn (List.length p) s)
  else match s with
       | [] => None
       | c :: rest =>
           match cut p rest with
           | Some (before, after) => Some (c :: before, after)
           | None => None
           end
       end.
Proof. destruct s; reflexivity. Qed.

Lemma skipn_prefix (p x : str) : skipn (List.length p) (p ++ x) = x.
Proof. induction p; simpl; auto. Qed.

Lemma startswith_skipn (p s : str) :
  startswith p s = true -> s = p ++ skipn (List.length p) s.
Proof.
  intros H. destruct (startswith_inv _ _ H) as [x ->].
  now rewrite skipn_prefix.
Qed.

Lemma cut_sound (p s b a : str) : cut p s = Some (b, a) -> s = b ++ p ++ a.
Proof.
  revert b; induction s as [|c s IH]; intros b; rewrite cut_unfold.
  - destruct (startswith p []) eqn:E; [|discriminate].
    intros H; injection H as <- <-. now apply startswith_skipn.
  - destruct (startswith p (c :: s)) eqn:E.
    + intros H; injection H as <- <-. now apply startswith_skipn.
    + destruct (cut p s) as [[b' a']|]; [|discriminate].
      intros H; injection H as <- <-. simpl. f_equal. now apply IH.
Qed.

Lemma cut_found (p b a : str) :
  exists b' a', cut p (b ++ p ++ a) = Some (b', a').
Proof.
  induction b as [|c b [b' [a' IH]]]; rewrite cut_unfold.
  - simpl. rewrite startswith_app. eauto.
  - destruct (startswith p ((c :: b) ++ p ++ a)); [eauto|].
    simpl. rewrite IH. eauto.
Qed.

Lemma contains_spec (p s : str) :
  contains p s = true <-> exists b a, s = b ++ p ++ a.
Proof.
  unfold contains. split.
  - destruct (cut p s) as [[b a]|] eqn:E; [|discriminate].
    intros _. exists b, a. now apply cut_sound.
  - intros [b [a ->]]. destruct (cut_found p b a) as [b' [a' ->]]. reflexivity.
Qed.

(** An occurrence within a part is an occurrence within the whole. *)
Lemma contains_within (p a s b : str) :
  contains p s = true -> contains p (a ++ s ++ b) = true.
Proof.
  intros H. apply contains_spec in H as [x [y ->]].
  apply contains_spec. exists (a ++ x), (y ++ b).
  now rewrite <- !app_assoc.
Qed.

Lemma contains_tail (c : char) (p s : str) :
  contains (c :: p) s = true -> contains p s = true.
Proof.
  intros H. apply contains_spec in H as [x [y ->]].
  apply contains_spec. exists (x ++ [c]), y.
  now rewrite <- app_assoc.
Qed.

Lemma contains_startswith (p s : str) :
  startswith p s = true -> contains p s = true.
Proof.
  intros H. destruct (startswith_inv _ _ H) as [x ->].
  apply contains_spec. now exists [], x.
Qed.

(** ** The rebinding of the response *)

Lemma rebind_found (p s : str) :
  contains p s = true ->
  exists b a, s = b ++ p ++ a /\ p ++ nth 1 (split_once p s) [] = p ++ a.
Proof.
  unfold contains, split_once.
  destruct (cut p s) as [[b a]|] eqn:E; [|discriminate].
  intros _. exists b, a. split; [now apply cut_sound | reflexivity].
Qed.

Lemma rebind_cases (s : str) :
  let r := DemonstrateFixes.rebind_response
             DemonstrateFixes.design_start_patterns s in
  (exists b a, s = b ++ header_lf ++ a /\ r = header_lf ++ a)
  \/ (contains header_lf s = false /\
      exists b a, s = b ++ header_crlf ++ a /\ r = header_crlf ++ a)
  \/ (contains header_lf s = false /\ contains header_crlf s = false /\ r = s).
Proof.
  cbv zeta. unfold DemonstrateFixes.design_start_patterns.
  unfold DemonstrateFixes.rebind_response.
  fold header_lf. fold header_crlf.
  destruct (contains header_lf s) eqn:H1.
  { left. destruct (rebind_found _ _ H1) as [b [a [Hs Hr]]]. eauto. }
  right.
  destruct (contains (py "### Design" ++ [nl]) s) eqn:H2.
  { apply contains_tail in H2. change (contains header_lf s = true) in H2.
    congruence. }
  destruct (contains header_crlf s) eqn:H3.
  { left. split; [reflexivity|].
    destruct (rebind_found _ _ H3) as [b [a [Hs Hr]]]. eauto. }
  right.
  destruct (contains (py "### Design" ++ [cr; nl]) s) eqn:H4.
  { apply contains_tail in H4. change (contains header_crlf s = true) in H4.
    congruence. }
  auto.
Qed.

(** ** The loop over the lines *)

Lemma collect_acc (lines : list str) (b : bool) (acc : list str) :
  DemonstrateFixes.collect lines b acc
  = acc ++ DemonstrateFixes.collect lines b [].
Proof.
  revert b acc; induction lines as [|l lines IH]; intros b acc; simpl.
  - now rewrite app_nil_r.
  - destruct (DemonstrateFixes.starts_design l).
    + rewrite IH, (IH true [l]). now rewrite <- app_assoc.
    + destruct (b && DemonstrateFixes.starts_heading l).
      * destruct (DemonstrateFixes.names_meta l); [now rewrite app_nil_r|].
        rewrite IH, (IH b [l]). now rewrite <- app_assoc.
      * destruct b; [|apply IH].
        rewrite IH, (IH true [l]). now rewrite <- app_assoc.
Qed.

Lemma collect_in_design (lines : list str) :
  DemonstrateFixes.collect lines true [] = keep lines.
Proof.
  induction lines as [|l lines IH]; simpl; [reflexivity|].
  unfold is_stop.
  destruct (DemonstrateFixes.starts_design l); simpl.
  - rewrite collect_acc, IH. reflexivity.
  - destruct (DemonstrateFixes.starts_heading l); simpl.
    + destruct (DemonstrateFixes.names_meta l); [reflexivity|].
      rewrite collect_acc, IH. reflexivity.
    + rewrite collect_acc, IH. reflexivity.
Qed.

Lemma collect_no_design (lines : list str) :
  Forall (fun l => DemonstrateFixes.starts_design l = false) lines ->
  DemonstrateFixes.collect lines false [] = [].
Proof.
  induction 1 as [|l lines Hl _ IH]; simpl; [reflexivity|].
  now rewrite Hl.
Qed.

Lemma collect_from_design (pre : list str) (h : str) (rest : list str) :
  Forall (fun l => DemonstrateFixes.starts_design l = false) pre ->
  DemonstrateFixes.starts_design h = true ->
  DemonstrateFixes.collect (pre ++ h :: rest) false [] = h :: keep rest.
Proof.
  induction 1 as [|l pre Hl _ IH]; intros Hh; simpl.
  - rewrite Hh, collect_acc, collect_in_design. reflexivity.
  - rewrite Hl. simpl. now apply IH.
Qed.

(** Every text has a first Design line or none. *)
Lemma first_design_line (lines : list str) :
  Forall (fun l => DemonstrateFixes.starts_design l = false) lines
  \/ exists pre h rest,
       lines = pre ++ h :: rest
       /\ Forall (fun l => DemonstrateFixes.starts_design l = false) pre
       /\ DemonstrateFixes.starts_design h = true.
Proof.
  induction lines as [|l lines IH]; [now left|].
  destruct (DemonstrateFixes.starts_design l) eqn:Hl.
  - right. exists [], l, lines. auto.
  - destruct IH as [IH | [pre [h [rest [-> [Hpre Hh]]]]]].
    + left. now constructor.
    + right. exists (l :: pre), h, rest. repeat split; auto.
Qed.

Lemma keep_no_stop (lines : list str) :
  Forall (fun l => is_stop l = false) (keep lines).
Proof.
  induction lines as [|l lines IH]; simpl; [constructor|].
  destruct (is_stop l) eqn:Hl; constructor; assumption.
Qed.

Lemma keep_all (lines : list str) :
  Forall (fun l => is_stop l = false) lines -> keep lines = lines.
Proof.
  induction 1 as [|l lines Hl _ IH]; simpl; [reflexivity|].
  now rewrite Hl, IH.
Qed.

Lemma keep_until (body : list str) (m : str) (post : list str) :
  Forall (fun l => is_stop l = false) body -> is_stop m = true ->
  keep (body ++ m :: post) = body.
Proof.
  induction 1 as [|l body Hl _ IH]; intros Hm; simpl.
  - now rewrite Hm.
  - now rewrite Hl, IH.
Qed.

Lemma keep_prefix (lines : list str) : exists post, lines = keep lines ++ post.
Proof.
  induction lines as [|l lines [post IH]]; simpl; [now exists []|].
  destruct (is_stop l); [now exists (l :: lines)|].
  exists post. simpl. now f_equal.
Qed.

(** ** The header at the front of a text and of its lines *)

Lemma design_token_snoc : design_token = py "## Desig" ++ [110%N].
Proof. reflexivity. Qed.

(** A line that begins with the header once its left end is trimmed begins
    with it when both ends are. *)
Lemma startswith_lstrip_strip (s : str) :
  startswith design_token (lstrip s) = true ->
  startswith design_token (strip s) = true.
Proof.
  intros H. destruct (startswith_inv _ _ H) as [x Hx].
  unfold strip. rewrite Hx, design_token_snoc.
  rewrite rstrip_keep by reflexivity. apply startswith_app.
Qed.

Lemma in_join_within (sep : char) (l : str) (ls : list str) :
  In l ls -> exists a b, join [sep] ls = a ++ l ++ b.
Proof.
  induction ls as [|m ls IH]; intros H; [destruct H|].
  destruct ls as [|k ls].
  - destruct H as [->|[]]. exists [], []. simpl. now rewrite app_nil_r.
  - rewrite join_cons. destruct H as [->|H].
    + now exists [], (sep :: join [sep] (k :: ls)).
    + destruct (IH H) as [a [b ->]]. exists (m ++ sep :: a), b.
      rewrite <- app_assoc. reflexivity.
Qed.

Lemma line_within (sep : char) (l s : str) :
  In l (split sep s) -> exists a b, s = a ++ l ++ b.
Proof.
  intros H. destruct (in_join_within sep _ _ H) as [a [b E]].
  rewrite join_split in E. eauto.
Qed.

Lemma strip_within (s : str) : exists a b, s = a ++ strip s ++ b.
Proof.
  destruct (lstrip_split s) as [a [Ha _]].
  destruct (rstrip_split (lstrip s)) as [b [Hb _]].
  exists a, b. unfold strip. now rewrite <- Hb.
Qed.

(** If the text begins with the header once its left end is trimmed, so
    does its first line that is not blank. *)
Lemma header_at_front (ls : list str) :
  ls <> [] ->
  startswith design_token (lstrip (join [nl] ls)) = true ->
  exists pre h post,
    ls = pre ++ h :: post
    /\ Forall (fun l => blank l = true) pre
    /\ startswith design_token (strip h) = true.
Proof.
  induction ls as [|l ls IH]; intros Hne H; [congruence|].
  destruct ls as [|m ls].
  - simpl in H. exists [], l, []. repeat split; [constructor|].
    now apply startswith_lstrip_strip.
  - rewrite join_cons, lstrip_app in H.
    destruct (blank l) eqn:Hl.
    + change (lstrip (nl :: join [nl] (m :: ls)))
        with (lstrip (join [nl] (m :: ls))) in H.
      destruct (IH ltac:(discriminate) H) as [pre [h [post [E [Hpre Hh]]]]].
      exists (l :: pre), h, post. rewrite E. repeat split; auto.
    + exists [], l, (m :: ls). repeat split; [constructor|].
      apply startswith_lstrip_strip.
      apply startswith_before_sep with (sep := nl) (b := join [nl] (m :: ls));
        [|exact H].
      unfold design_token, nl. not_in_literal.
Qed.

(** ** The loop of the validator *)

Lemma find_design_none (lines : list str) (i : nat) (acc : list str) :
  Forall (fun l => startswith design_token (strip l) = false) lines ->
  fst (find_design lines i acc) = None.
Proof.
  intros H; revert i acc; induction H as [|l lines Hl _ IH]; intros i acc;
    cbn [find_design]; [reflexivity|].
  rewrite Hl. destruct (truthy (strip l)); apply IH.
Qed.

Lemma find_design_found (pre : list str) (h : str) (post : list str)
    (i : nat) (acc : list str) :
  Forall (fun l => startswith design_token (strip l) = false) pre ->
  startswith design_token (strip h) = true ->
  find_design (pre ++ h :: post) i acc
  = (Some (i + List.length pre),
     acc ++ map (fun e => preamble_entry (fst e) (snd e))
              (filter (fun e => negb (blank (snd e)))
                 (combine (seq i (List.length pre)) pre))).
Proof.
  intros Hpre Hh; revert i acc.
  induction Hpre as [|l pre Hl _ IH]; intros i acc;
    cbn [find_design app List.length seq combine filter snd].
  - rewrite Hh, Nat.add_0_r, app_nil_r. reflexivity.
  - rewrite Hl, truthy_strip.
    destruct (blank l); cbn [negb map fst snd]; rewrite IH.
    + f_equal. f_equal. lia.
    + rewrite <- app_assoc. f_equal. f_equal. lia.
Qed.

Lemma in_numbered (pre : list str) (i j : nat) (l : str) :
  In (j, l) (combine (seq i (List.length pre)) pre) ->
  i <= j /\ nth_error pre (j - i) = Some l.
Proof.
  revert i; induction pre as [|k pre IH]; intros i H; [destruct H|].
  simpl in H. destruct H as [H|H].
  - injection H as <- <-. rewrite Nat.sub_diag. split; [lia | reflexivity].
  - destruct (IH _ H) as [Hle Hn]. split; [lia|].
    replace (j - i) with (S (j - S i)) by lia. exact Hn.
Qed.

Lemma in_firstn {A} (n : nat) (x : A) (l : list A) :
  In x (firstn n l) -> In x l.
Proof.
  intros H. rewrite <- (firstn_skipn n l). apply in_or_app. now left.
Qed.

(** A text with a line that is not blank in front of its first header
    line does not begin with the header. *)
Lemma preamble_not_at_front (pre : list str) (h : str) (post : list str) :
  Forall (fun l => startswith design_token (strip l) = false) pre ->
  Exists (fun l => blank l = false) pre ->
  startswith design_token (lstrip (join [nl] (pre ++ h :: post))) = false.
Proof.
  intros Hpre Hex.
  destruct (startswith design_token (lstrip (join [nl] (pre ++ h :: post))))
    eqn:E; [|reflexivity].
  exfalso.
  apply header_at_front in E; [|now destruct pre].
  destruct E as [pre' [h' [post' [Hs [Hb Hh']]]]].
  (* the first non-blank line is in [pre] and would be a header line *)
  revert pre' Hs Hb.
  induction Hpre as [|l pre Hl Hpre IH]; intros pre' Hs Hb.
  - inversion Hex.
  - destruct pre' as [|b pre'].
    + simpl in Hs. injection Hs as -> _. congruence.
    + simpl in Hs. injection Hs as -> Hs.
      inversion Hb as [|? ? Hbl Hb']; subst.
      inversion Hex as [? ? Hnb | ? ? Hex']; subst; [congruence|].
      exact (IH Hex' pre' Hs Hb').
Qed.

(** ** The validator: what it accepts and what it reports *)

Lemma validate_accepts (response agent_name : str) :
  startswith design_token (lstrip response) = true ->
  validate_response_format response agent_name = (true, []).
Proof. intros H. unfold validate_response_format. now rewrite H. Qed.

Lemma validate_rejects (response agent_name : str) :
  startswith design_token (lstrip response) = false ->
  fst (validate_response_format response agent_name) = false.
Proof.
  intros H. unfold validate_response_format. rewrite H. simpl.
  destruct (find_design (split nl response) 0 []) as [[n|] pl]; reflexivity.
Qed.

Lemma validate_missing (response agent_name : str) :
  Forall (fun l => startswith design_token (strip l) = false)
         (split nl response) ->
  validate_response_format response agent_name
  = (false, missing_message agent_name).
Proof.
  intros H. unfold validate_response_format.
  destruct (startswith design_token (lstrip response)) eqn:E.
  - exfalso. rewrite <- (join_split nl response) in E.
    apply header_at_front in E; [|apply split_ne].
    destruct E as [pre [h [post [Hs [_ Hh]]]]].
    rewrite Hs in H. apply Forall_app in H as [_ H].
    inversion H; congruence.
  - simpl. pose proof (find_design_none _ 0 [] H) as Hn.
    destruct (find_design (split nl response) 0 []) as [[n|] pl];
      [discriminate | reflexivity].
Qed.

(** C1, as amended: the validator succeeds, and then with the empty
    message, exactly on the responses that begin with [## Design] once
    their leading white space is stripped; on every response in which no
    line begins with [## Design] after the line is trimmed (so on every
    response in which [## Design] does not occur at all) it fails with the
    missing-header message, which is the agent's name followed by a fixed
    text and lists no line. *)
Theorem validate_success_iff_and_missing_header (response agent_name : str) :
  (fst (validate_response_format response agent_name) = true
   <-> startswith design_token (lstrip response) = true)
  /\ (fst (validate_response_format response agent_name) = true ->
      snd (validate_response_format response agent_name) = [])
  /\ ((forall line, In line (split nl response) ->
         startswith design_token (strip line) = false) ->
      validate_response_format response agent_name
      = (false,
         agent_name ++ py " response missing '## Design' section header."))
  /\ (contains design_token response = false ->
      validate_response_format response agent_name
      = (false,
         agent_name ++ py " response missing '## Design' section header.")).
Proof.
  assert (Hiff : fst (validate_response_format response agent_name) = true
                 <-> startswith design_token (lstrip response) = true).
  { split; intros H.
    - destruct (startswith design_token (lstrip response)) eqn:E;
        [reflexivity|].
      rewrite (validate_rejects _ agent_name E) in H. discriminate.
    - now rewrite validate_accepts. }
  split; [exact Hiff|]. split; [|split].
  - intros H. apply Hiff in H. now rewrite validate_accepts.
  - intros H. apply validate_missing. now apply Forall_forall.
  - intros H. apply validate_missing. apply Forall_forall. intros l Hl.
    destruct (startswith design_token (strip l)) eqn:E; [|reflexivity].
    apply contains_startswith in E.
    destruct (strip_within l) as [a [b Hab]].
    destruct (line_within _ _ _ Hl) as [c [d Hcd]].
    apply (contains_within _ a _ b) in E. rewrite <- Hab in E.
    apply (contains_within _ c _ d) in E. rewrite <- Hcd in E. congruence.
Qed.

Lemma validate_success_iff_and_missing_header_witness :
  validate_response_format (py "Here is my analysis of the design...")
    (py "Test Agent")
  = (false, py "Test Agent response missing '## Design' section header.").
Proof.
  apply (proj1 (proj2 (proj2
    (validate_success_iff_and_missing_header
       (py "Here is my analysis of the design...") (py "Test Agent"))))).
  intros line [<-|[]]. reflexivity.
Defined.

(** C1 as it is worded fails: with the header indented on the second
    line, [## Design] stands at the start of no line, and the validator
    reports a preamble, not a missing header. *)
Lemma indented_header_is_not_missing :
  Forall (fun line => startswith design_token line = false)
         (split nl (py "Intro" ++ [nl] ++ py "  ## Design"))
  /\ validate_response_format (py "Intro" ++ [nl] ++ py "  ## Design")
       (py "Agent A")
     = (false, preamble_message (py "Agent A") 1 (py "  Line 1: Intro"))
  /\ validate_response_format (py "Intro" ++ [nl] ++ py "  ## Design")
       (py "Agent A")
     <> (false, missing_message (py "Agent A")).
Proof.
  split; [|split].
  - repeat constructor.
  - reflexivity.
  - vm_compute. discriminate.
Qed.

(** C10: the header check is a prefix test; whatever follows the nine
    characters [## Design] at the front of the stripped response, the
    validator succeeds. *)
Theorem validate_is_prefix_test (response agent_name rest : str) :
  lstrip response = design_token ++ rest ->
  validate_response_format response agent_name = (true, []).
Proof.
  intros H. apply validate_accepts. rewrite H. apply startswith_app.
Qed.

Lemma validate_is_prefix_test_witness :
  lstrip ([nl] ++ py "  ## Design Document" ++ [nl] ++ py "Body")
  = design_token ++ (py " Document" ++ [nl] ++ py "Body")
  /\ validate_response_format
       ([nl] ++ py "  ## Design Document" ++ [nl] ++ py "Body") (py "Agent A")
     = (true, [])
  /\ validate_response_format (py "## Designs") (py "Agent A") = (true, []).
Proof.
  split; [reflexivity|]. split.
  - apply (validate_is_prefix_test
             ([nl] ++ py "  ## Design Document" ++ [nl] ++ py "Body")
             (py "Agent A") (py " Document" ++ [nl] ++ py "Body")).
    reflexivity.
  - apply (validate_is_prefix_test (py "## Designs") (py "Agent A") (py "s")).
    reflexivity.
Defined.

(** C8, as amended: a response whose first content is [### Design] is
    rejected by the validator, which knows the level-2 header only. *)
Theorem level3_header_is_rejected (response agent_name : str) :
  startswith (py "### Design") (lstrip response) = true ->
  fst (validate_response_format response agent_name) = false.
Proof.
  intros H. apply validate_rejects.
  destruct (startswith_inv _ _ H) as [x ->]. reflexivity.
Qed.

Lemma level3_header_is_rejected_witness :
  startswith (py "### Design")
    (lstrip (py "### Design" ++ [nl; nl] ++ py "# API")) = true
  /\ fst (validate_response_format
            (py "### Design" ++ [nl; nl] ++ py "# API") (py "Agent A"))
     = false.
Proof.
  split; [reflexivity|].
  apply (level3_header_is_rejected
           (py "### Design" ++ [nl; nl] ++ py "# API") (py "Agent A")).
  reflexivity.
Defined.

(** C8 as it is worded fails: the response below has the line
    [### Design] as its first content and the validator answers with the
    missing-header failure. *)
Lemma level3_header_not_accepted :
  validate_response_format (py "### Design" ++ [nl; nl] ++ py "# API")
    (py "Agent A")
  = (false, py "Agent A response missing '## Design' section header.").
Proof. reflexivity. Qed.

(** C2, as amended: when the lines in front of the first line that
    begins, trimmed, with [## Design] are not all blank, the validator
    fails with the preamble message: the agent's name, the 1-based number
    of that line, and the first five at most of the lines in front of it
    that are not blank, each with its number and cut to 80 characters. *)
Theorem validate_reports_preamble (response agent_name : str)
    (pre : list str) (h : str) (post : list str) :
  split nl response = pre ++ h :: post ->
  Forall (fun l => startswith design_token (strip l) = false) pre ->
  startswith design_token (strip h) = true ->
  Exists (fun l => blank l = false) pre ->
  let listed := firstn 5 (numbered_nonblank pre) in
  validate_response_format response agent_name
  = (false,
     agent_name ++ py " violated format requirements." ++ [nl; nl]
     ++ py "Forbidden preamble detected before '## Design' (found at line "
     ++ str_of_nat (List.length pre + 1) ++ py "):" ++ [nl]
     ++ join [nl]
          (map (fun e => py "  Line " ++ str_of_nat (fst e + 1) ++ py ": "
                         ++ firstn 80 (snd e)) listed)
     ++ [nl; nl] ++ py "The response will be automatically cleaned.")
  /\ List.length listed <= 5
  /\ Forall (fun e => nth_error pre (fst e) = Some (snd e)
                      /\ blank (snd e) = false
                      /\ List.length (firstn 80 (snd e)) <= 80) listed.
Proof.
  intros Hs Hpre Hh Hex listed. split; [|split].
  - unfold validate_response_format.
    rewrite <- (join_split nl response) at 1. rewrite Hs.
    rewrite (preamble_not_at_front pre h post Hpre Hex). cbn [negb].
    rewrite (find_design_found pre h post 0 [] Hpre Hh). cbn [app Nat.add].
    rewrite firstn_map. reflexivity.
  - apply firstn_le_length.
  - apply Forall_forall. intros [j l] Hin. cbn [fst snd].
    apply in_firstn in Hin. apply filter_In in Hin as [Hin Hnb].
    apply in_numbered in Hin as [_ Hn]. rewrite Nat.sub_0_r in Hn.
    cbn [snd] in Hnb. apply negb_true_iff in Hnb.
    repeat split; [exact Hn | exact Hnb | apply firstn_le_length].
Qed.

Lemma validate_reports_preamble_witness :
  validate_response_format
    (py "Thank you for the feedback." ++ [nl; nl] ++ py "## Design"
     ++ [nl; nl] ++ py "# API")
    (py "Agent A")
  = (false,
     py "Agent A violated format requirements." ++ [nl; nl]
     ++ py "Forbidden preamble detected before '## Design' (found at line 3):"
     ++ [nl] ++ py "  Line 1: Thank you for the feedback."
     ++ [nl; nl] ++ py "The response will be automatically cleaned.").
Proof.
  refine (proj1 (validate_reports_preamble
            (py "Thank you for the feedback." ++ [nl; nl] ++ py "## Design"
             ++ [nl; nl] ++ py "# API")
            (py "Agent A")
            [py "Thank you for the feedback."; []] (py "## Design")
            [[]; py "# API"] _ _ _ _)).
  - reflexivity.
  - repeat constructor.
  - reflexivity.
  - apply Exists_cons_hd. reflexivity.
Defined.

(** C2 as it is worded fails: with the header in the middle of a line the
    validator reports a missing header; and a response that itself begins
    with [## Design] is accepted whatever follows. *)
Lemma midline_header_is_missing :
  validate_response_format (py "See " ++ py "## Design" ++ py " below")
    (py "Agent A")
  = (false, missing_message (py "Agent A"))
  /\ validate_response_format
       (py "## Design v1 " ++ py "## Design" ++ py " v2") (py "Agent A")
     = (true, []).
Proof. split; reflexivity. Qed.

(** ** The extractor on a text with a Design line *)

Lemma starts_design_not_blank (h : str) :
  DemonstrateFixes.starts_design h = true -> blank h = false.
Proof.
  intros H. destruct (blank h) eqn:E; [|reflexivity].
  unfold DemonstrateFixes.starts_design in H.
  rewrite (strip_blank _ E) in H. discriminate.
Qed.

Lemma header_line_starts_design (h : str) :
  startswith design_token (strip h) = true ->
  DemonstrateFixes.starts_design h = true.
Proof.
  intros H. unfold DemonstrateFixes.starts_design.
  change (py "## Design") with design_token. rewrite H. apply orb_true_r.
Qed.

Lemma join_head (l : str) (ls : list str) :
  exists y, join [nl] (l :: ls) = l ++ y.
Proof.
  destruct ls as [|m ls].
  - exists []. simpl. now rewrite app_nil_r.
  - exists (nl :: join [nl] (m :: ls)). apply join_cons.
Qed.

Lemma truthy_design (h : str) (body : list str) :
  DemonstrateFixes.starts_design h = true ->
  truthy (strip (join [nl] (h :: body))) = true.
Proof.
  intros H. rewrite truthy_strip, blank_join. simpl.
  now rewrite (starts_design_not_blank _ H).
Qed.

(** The design starts with whatever its first line starts with once
    trimmed, when that ends with a character that is not a space. *)
Lemma design_starts_like_first_line (a : str) (c : char) (h : str)
    (body : list str) :
  is_space c = false ->
  startswith (a ++ [c]) (strip h) = true ->
  startswith (a ++ [c]) (strip (join [nl] (h :: body))) = true.
Proof.
  intros Hc H. apply startswith_strip_lstrip in H.
  destruct (startswith_inv _ _ H) as [x Hx].
  destruct (join_head h body) as [y ->].
  unfold strip. rewrite lstrip_app.
  destruct (blank h) eqn:Hb.
  - rewrite (lstrip_blank _ Hb) in Hx. now destruct a.
  - rewrite Hx, <- app_assoc, rstrip_keep by exact Hc.
    apply startswith_app.
Qed.

(** What the extractor returns when the rebound response has a Design
    line. *)
Lemma extract_with_design (response : str) (pre : list str) (h : str)
    (rest : list str) :
  split nl (DemonstrateFixes.rebind_response
              DemonstrateFixes.design_start_patterns response)
  = pre ++ h :: rest ->
  Forall (fun l => DemonstrateFixes.starts_design l = false) pre ->
  DemonstrateFixes.starts_design h = true ->
  DemonstrateFixes.extract_design_section response
  = strip (join [nl] (h :: keep rest)).
Proof.
  intros Hs Hpre Hh. unfold DemonstrateFixes.extract_design_section.
  rewrite Hs, (collect_from_design pre h rest Hpre Hh).
  now rewrite (truthy_design h (keep rest) Hh).
Qed.

(** What it returns when there is none. *)
Lemma extract_without_design (response : str) :
  Forall (fun l => DemonstrateFixes.starts_design l = false)
    (split nl (DemonstrateFixes.rebind_response
                 DemonstrateFixes.design_start_patterns response)) ->
  DemonstrateFixes.extract_design_section response
  = DemonstrateFixes.rebind_response
      DemonstrateFixes.design_start_patterns response.
Proof.
  intros H. unfold DemonstrateFixes.extract_design_section.
  now rewrite (collect_no_design _ H).
Qed.

Lemma split_header_lf (a : str) :
  split nl (header_lf ++ a) = design_token :: split nl a.
Proof.
  unfold header_lf. rewrite <- app_assoc. apply split_app_sep.
  unfold design_token, nl. not_in_literal.
Qed.

Lemma split_header_crlf (a : str) :
  split nl (header_crlf ++ a) = (design_token ++ [cr]) :: split nl a.
Proof.
  unfold header_crlf.
  change (py "## Design" ++ [cr; nl]) with ((design_token ++ [cr]) ++ [nl]).
  rewrite <- app_assoc. apply split_app_sep.
  unfold design_token, nl, cr. not_in_literal.
Qed.

(** When a start pattern has rebound the response, the design is not
    empty: the fall-back returns the response as it was given. *)
Lemma rebind_unless_design (response : str) :
  let r := DemonstrateFixes.rebind_response
             DemonstrateFixes.design_start_patterns response in
  r = response
  \/ exists h rest,
       split nl r = h :: rest /\ startswith design_token (strip h) = true.
Proof.
  cbv zeta. destruct (rebind_cases response)
    as [[b [a [_ ->]]] | [[_ [b [a [_ ->]]]] | [_ [_ ->]]]].
  - right. rewrite split_header_lf. eauto.
  - right. rewrite split_header_crlf. eauto.
  - now left.
Qed.

Lemma rebind_nonempty (response : str) :
  response <> [] ->
  DemonstrateFixes.rebind_response
    DemonstrateFixes.design_start_patterns response <> [].
Proof.
  intros H. destruct (rebind_cases response)
    as [[b [a [_ ->]]] | [[_ [b [a [_ ->]]]] | [_ [_ ->]]]];
    [discriminate | discriminate | exact H].
Qed.

Lemma rebind_none (s : str) :
  contains header_lf s = false -> contains header_crlf s = false ->
  DemonstrateFixes.rebind_response DemonstrateFixes.design_start_patterns s
  = s.
Proof.
  intros H1 H3. destruct (rebind_cases s)
    as [[b [a [Hs _]]] | [[_ [b [a [Hs _]]]] | [_ [_ Hr]]]];
    [| | exact Hr].
  - assert (contains header_lf s = true)
      by (apply contains_spec; eauto). congruence.
  - assert (contains header_crlf s = true)
      by (apply contains_spec; eauto). congruence.
Qed.

Lemma extract_unchanged (response : str) :
  contains header_lf response = false ->
  contains header_crlf response = false ->
  Forall (fun l => DemonstrateFixes.starts_design l = false)
         (split nl response) ->
  DemonstrateFixes.extract_design_section response = response.
Proof.
  intros H1 H3 H. rewrite extract_without_design;
    rewrite (rebind_none _ H1 H3); [reflexivity | exact H].
Qed.

Lemma find_start_none (lines : list str) (i : nat) :
  Forall (fun l => startswith design_token (strip l) = false) lines ->
  TestFormatEnforcement.find_start lines i = None.
Proof.
  intros H; revert i; induction H as [|l lines Hl _ IH]; intros i;
    cbn [TestFormatEnforcement.find_start]; [reflexivity|].
  rewrite Hl. apply IH.
Qed.

(** ** The extractor: what it keeps and where it stops *)

(** C3, as amended: on the response as the start patterns have rebound
    it, the extractor takes the lines from the first line that begins,
    trimmed, with [## Design] or [### Design], up to the first later line
    that is not such a line, begins, trimmed, with [## ] or [### ] and
    contains a meta-section name; that line and all after it are left
    out, headings without a meta-section name are kept, and the result is
    these lines joined and trimmed.  On the response of the scenario it is
    the header, an empty line and [# API]. *)
Theorem extract_stops_at_meta_heading (response : str) (pre : list str)
    (h : str) (body : list str) (m : str) (post : list str) :
  split nl (DemonstrateFixes.rebind_response
              DemonstrateFixes.design_start_patterns response)
  = pre ++ h :: body ++ m :: post ->
  Forall (fun l => DemonstrateFixes.starts_design l = false) pre ->
  DemonstrateFixes.starts_design h = true ->
  Forall (fun l => is_stop l = false) body ->
  is_stop m = true ->
  DemonstrateFixes.extract_design_section response
  = strip (join [nl] (h :: body))
  /\ is_stop (py "## Architecture") = false
  /\ DemonstrateFixes.extract_design_section
       (py "Thank you for the feedback." ++ [nl; nl] ++ py "## Design"
        ++ [nl; nl] ++ py "# API" ++ [nl; nl] ++ py "## Rationale" ++ [nl]
        ++ py "Done." ++ [nl])
     = py "## Design" ++ [nl; nl] ++ py "# API".
Proof.
  intros Hs Hpre Hh Hbody Hm. split; [|split; reflexivity].
  rewrite (extract_with_design response pre h (body ++ m :: post) Hs Hpre Hh).
  now rewrite keep_until.
Qed.

Lemma extract_stops_at_meta_heading_witness :
  DemonstrateFixes.extract_design_section
    (py "Some preamble text here." ++ [nl; nl] ++ py "## Design" ++ [nl]
     ++ py "## Endpoints" ++ [nl] ++ py "- POST /login  " ++ [nl; nl]
     ++ py "### Open Questions" ++ [nl] ++ py "None." ++ [nl])
  = py "## Design" ++ [nl] ++ py "## Endpoints" ++ [nl] ++ py "- POST /login".
Proof.
  refine (proj1 (extract_stops_at_meta_heading
            (py "Some preamble text here." ++ [nl; nl] ++ py "## Design"
             ++ [nl] ++ py "## Endpoints" ++ [nl] ++ py "- POST /login  "
             ++ [nl; nl] ++ py "### Open Questions" ++ [nl] ++ py "None."
             ++ [nl])
            [] (py "## Design")
            [py "## Endpoints"; py "- POST /login  "; []]
            (py "### Open Questions") [py "None."; []] _ _ _ _ _)).
  - reflexivity.
  - constructor.
  - reflexivity.
  - repeat constructor.
  - reflexivity.
Defined.

(** C3 as it is worded fails twice.  A later line that begins with
    [## Design] is kept even when it is a level-2 heading whose title
    contains a meta-section name; and the lines are not taken from the
    first Design heading line when a later line is exactly the header
    followed by a line break. *)
Lemma extract_keeps_design_rationale :
  DemonstrateFixes.extract_design_section
    (py "## Design" ++ [nl] ++ py "A" ++ [nl] ++ py "## Design Rationale"
     ++ [nl] ++ py "B")
  = py "## Design" ++ [nl] ++ py "A" ++ [nl] ++ py "## Design Rationale"
    ++ [nl] ++ py "B"
  /\ DemonstrateFixes.starts_heading (py "## Design Rationale") = true
  /\ DemonstrateFixes.names_meta (py "## Design Rationale") = true
  /\ DemonstrateFixes.extract_design_section
       (py "## Design " ++ [nl] ++ py "A" ++ [nl] ++ py "## Design" ++ [nl]
        ++ py "B")
     = py "## Design" ++ [nl] ++ py "B".
Proof. repeat split; reflexivity. Qed.

(** C7, as amended: the extractor returns its input unchanged when no
    line begins, trimmed, with [## Design] or [### Design] and the input
    contains neither the header followed by a line feed nor the header
    followed by a carriage return and a line feed; its result is never
    empty for an input that is not; and whenever the trimmed design text
    is empty it returns the input as it was given. *)
Theorem extract_fallback_returns_input (response : str) :
  (contains header_lf response = false ->
   contains header_crlf response = false ->
   (forall line, In line (split nl response) ->
      DemonstrateFixes.starts_design line = false) ->
   DemonstrateFixes.extract_design_section response = response)
  /\ (response <> [] ->
      DemonstrateFixes.extract_design_section response <> [])
  /\ (strip (join [nl]
        (DemonstrateFixes.collect
           (split nl (DemonstrateFixes.rebind_response
                        DemonstrateFixes.design_start_patterns response))
           false [])) = [] ->
      DemonstrateFixes.extract_design_section response = response).
Proof.
  split; [|split].
  - intros H1 H3 H. apply extract_unchanged; auto. now apply Forall_forall.
  - intros Hne. unfold DemonstrateFixes.extract_design_section.
    destruct (truthy (strip (join [nl] _))) eqn:E.
    + intros F. rewrite F in E. discriminate.
    + now apply rebind_nonempty.
  - intros HD. unfold DemonstrateFixes.extract_design_section.
    rewrite HD. cbn [truthy].
    destruct (rebind_unless_design response) as [Hr | [h [rest [Hs Hh]]]];
      [exact Hr|].
    exfalso. apply header_line_starts_design in Hh.
    pose proof (collect_from_design [] h rest (Forall_nil _) Hh) as Hc.
    cbn [app] in Hc. rewrite Hs, Hc in HD.
    pose proof (truthy_design h (keep rest) Hh) as Ht.
    rewrite HD in Ht. discriminate.
Qed.

Lemma extract_fallback_returns_input_witness :
  DemonstrateFixes.extract_design_section
    (py "Here is my analysis of the ## Design section." ++ [nl] ++ py "# API")
  = py "Here is my analysis of the ## Design section." ++ [nl] ++ py "# API"
  /\ DemonstrateFixes.extract_design_section
       (py "Here is my analysis of the ## Design section." ++ [nl]
        ++ py "# API")
     <> [].
Proof.
  split.
  - apply (proj1 (extract_fallback_returns_input
      (py "Here is my analysis of the ## Design section." ++ [nl]
       ++ py "# API"))).
    + reflexivity.
    + reflexivity.
    + intros line [<-|[<-|[]]]; reflexivity.
  - apply (proj1 (proj2 (extract_fallback_returns_input
      (py "Here is my analysis of the ## Design section." ++ [nl]
       ++ py "# API")))).
    discriminate.
Defined.

(** C7 as it is worded fails: in the response below no line begins,
    trimmed, with a Design heading, yet the first start pattern occurs in
    it and the extractor drops what stands in front of it. *)
Lemma extract_changes_midline_header :
  Forall (fun line => DemonstrateFixes.starts_design line = false)
         (split nl (py "Plan: ## Design" ++ [nl] ++ py "# API"))
  /\ DemonstrateFixes.extract_design_section
       (py "Plan: ## Design" ++ [nl] ++ py "# API")
     = py "## Design" ++ [nl] ++ py "# API"
  /\ DemonstrateFixes.extract_design_section
       (py "Plan: ## Design" ++ [nl] ++ py "# API")
     <> py "Plan: ## Design" ++ [nl] ++ py "# API".
Proof.
  split; [repeat constructor|]. split; [reflexivity|].
  vm_compute. discriminate.
Qed.

(** ** The two extractors side by side *)

Lemma rebind_at_header_lf (w : str) :
  DemonstrateFixes.rebind_response DemonstrateFixes.design_start_patterns
    (header_lf ++ w)
  = header_lf ++ w.
Proof.
  unfold DemonstrateFixes.design_start_patterns.
  unfold DemonstrateFixes.rebind_response. fold header_lf.
  rewrite (contains_startswith _ _ (startswith_app header_lf w)).
  unfold split_once. rewrite cut_unfold, startswith_app.
  cbn [nth]. now rewrite skipn_prefix.
Qed.

Lemma lstrip_header (x : str) : lstrip (design_token ++ x) = design_token ++ x.
Proof. reflexivity. Qed.

(** C9 as it is worded fails: on a compliant response with a Rationale
    section the first extractor keeps the section and the second drops
    it. *)
Lemma extractors_differ_on_rationale :
  TestFormatEnforcement.extract_design_section
    (py "## Design" ++ [nl] ++ py "# API" ++ [nl] ++ py "## Rationale"
     ++ [nl] ++ py "Done.")
  = py "## Design" ++ [nl] ++ py "# API" ++ [nl] ++ py "## Rationale"
    ++ [nl] ++ py "Done."
  /\ DemonstrateFixes.extract_design_section
       (py "## Design" ++ [nl] ++ py "# API" ++ [nl] ++ py "## Rationale"
        ++ [nl] ++ py "Done.")
     = py "## Design" ++ [nl] ++ py "# API"
  /\ TestFormatEnforcement.extract_design_section
       (py "## Design" ++ [nl] ++ py "# API" ++ [nl] ++ py "## Rationale"
        ++ [nl] ++ py "Done.")
     <> DemonstrateFixes.extract_design_section
          (py "## Design" ++ [nl] ++ py "# API" ++ [nl] ++ py "## Rationale"
           ++ [nl] ++ py "Done.").
Proof.
  split; [reflexivity|]. split; [reflexivity|].
  vm_compute. discriminate.
Qed.

(** ** Extraction, then validation *)

Lemma first_header_line (pre : list str) (h : str) (post : list str) :
  startswith design_token (strip h) = true ->
  Forall (fun l => startswith (py "### Design") (strip l) = false) pre ->
  exists pre1 h1 rest1,
    pre ++ h :: post = pre1 ++ h1 :: rest1
    /\ Forall (fun l => DemonstrateFixes.starts_design l = false) pre1
    /\ startswith design_token (strip h1) = true.
Proof.
  intros Hh Hpre. induction Hpre as [|l pre Hl _ IH].
  - exists [], h, post. auto.
  - destruct (DemonstrateFixes.starts_design l) eqn:Hd.
    + exists [], l, (pre ++ h :: post). repeat split; [constructor|].
      unfold DemonstrateFixes.starts_design in Hd.
      rewrite Hl in Hd. exact Hd.
    + destruct IH as [pre1 [h1 [rest1 [E [Hp Hh1]]]]].
      exists (l :: pre1), h1, rest1. simpl. rewrite E. auto.
Qed.

(** C5, as amended: when some line of the response begins, trimmed, with
    [## Design] and no line in front of it begins, trimmed, with
    [### Design], the validator accepts what the extractor returns. *)
Theorem extraction_repairs_preamble (response agent_name : str)
    (pre : list str) (h : str) (post : list str) :
  split nl response = pre ++ h :: post ->
  startswith design_token (strip h) = true ->
  Forall (fun l => startswith (py "### Design") (strip l) = false) pre ->
  validate_response_format
    (DemonstrateFixes.extract_design_section response) agent_name
  = (true, []).
Proof.
  intros Hs Hh Hpre.
  assert (Hr : exists pre1 h1 rest1,
            split nl (DemonstrateFixes.rebind_response
                        DemonstrateFixes.design_start_patterns response)
            = pre1 ++ h1 :: rest1
            /\ Forall (fun l => DemonstrateFixes.starts_design l = false) pre1
            /\ startswith design_token (strip h1) = true).
  { destruct (rebind_unless_design response) as [-> | [h0 [rest [E Hh0]]]].
    - rewrite Hs. now apply first_header_line.
    - exists [], h0, rest. auto. }
  destruct Hr as [pre1 [h1 [rest1 [E [Hp Hh1]]]]].
  rewrite (extract_with_design response pre1 h1 rest1 E Hp
             (header_line_starts_design _ Hh1)).
  apply validate_accepts. rewrite lstrip_strip.
  rewrite design_token_snoc in *.
  now apply design_starts_like_first_line.
Qed.

Lemma extraction_repairs_preamble_witness :
  validate_response_format
    (DemonstrateFixes.extract_design_section
       (py "I disagree with your approach." ++ [nl; nl] ++ py "  ## Design"
        ++ [nl; nl] ++ py "# Clean Design" ++ [nl; nl] ++ py "## Rationale"
        ++ [nl] ++ py "Done."))
    (py "Agent A")
  = (true, []).
Proof.
  refine (extraction_repairs_preamble
            (py "I disagree with your approach." ++ [nl; nl]
             ++ py "  ## Design" ++ [nl; nl] ++ py "# Clean Design"
             ++ [nl; nl] ++ py "## Rationale" ++ [nl] ++ py "Done.")
            (py "Agent A")
            [py "I disagree with your approach."; []] (py "  ## Design")
            [[]; py "# Clean Design"; []; py "## Rationale"; py "Done."]
            _ _ _).
  - reflexivity.
  - reflexivity.
  - repeat constructor.
Defined.

(** C5 as it is worded fails: with the header in the middle of the only
    line the extractor returns the response as it is, and with the prefix
    [#] it returns a text that begins with [### Design]; the validator
    rejects both. *)
Lemma extraction_leaves_invalid :
  DemonstrateFixes.extract_design_section
    (py "Note: " ++ py "## Design" ++ py " follows")
  = py "Note: ## Design follows"
  /\ fst (validate_response_format
            (DemonstrateFixes.extract_design_section
               (py "Note: " ++ py "## Design" ++ py " follows"))
            (py "Agent A")) = false
  /\ fst (validate_response_format
            (DemonstrateFixes.extract_design_section
               (py "#" ++ py "## Design" ++ (py " v2" ++ [nl] ++ py "Body")))
            (py "Agent A")) = false.
Proof. repeat split; reflexivity. Qed.

(** ** Convergence *)

(** C4: the status is a function of the two signals alone, and over the
    nine pairs of signals it is CONSENSUS when neither is ITERATING,
    CONVERGING when exactly one is, DEBATING when both are. *)
Theorem check_convergence_truth_table (a b a' b' : Debate.AgentResponse) :
  Debate.convergence_signal a = Debate.convergence_signal a' ->
  Debate.convergence_signal b = Debate.convergence_signal b' ->
  Debate.check_convergence a b = Debate.check_convergence a' b'
  /\ (Debate.convergence_signal a <> Debate.ITERATING ->
      Debate.convergence_signal b <> Debate.ITERATING ->
      Debate.check_convergence a b = Debate.CONSENSUS)
  /\ (Debate.convergence_signal a <> Debate.ITERATING ->
      Debate.convergence_signal b = Debate.ITERATING ->
      Debate.check_convergence a b = Debate.CONVERGING)
  /\ (Debate.convergence_signal a = Debate.ITERATING ->
      Debate.convergence_signal b <> Debate.ITERATING ->
      Debate.check_convergence a b = Debate.CONVERGING)
  /\ (Debate.convergence_signal a = Debate.ITERATING ->
      Debate.convergence_signal b = Debate.ITERATING ->
      Debate.check_convergence a b = Debate.DEBATING).
Proof.
  intros Ha Hb. unfold Debate.check_convergence. rewrite <- Ha, <- Hb.
  destruct (Debate.convergence_signal a), (Debate.convergence_signal b);
    repeat split; intros; congruence.
Qed.

Lemma check_convergence_truth_table_witness :
  Debate.check_convergence
    (Debate.Build_AgentResponse (py "Design content") (py "Review this")
       Debate.PROPOSING_FINAL (py "Full response"))
    (Debate.Build_AgentResponse (py "Improved design") (py "Looks good")
       Debate.ACCEPTING_FINAL (py "Full response"))
  = Debate.check_convergence
      (Debate.Build_AgentResponse [] [] Debate.PROPOSING_FINAL [])
      (Debate.Build_AgentResponse [] [] Debate.ACCEPTING_FINAL [])
  /\ Debate.check_convergence
       (Debate.Build_AgentResponse (py "Design content") (py "Review this")
          Debate.PROPOSING_FINAL (py "Full response"))
       (Debate.Build_AgentResponse (py "Improved design") (py "Looks good")
          Debate.ACCEPTING_FINAL (py "Full response"))
     = Debate.CONSENSUS.
Proof.
  destruct (check_convergence_truth_table
    (Debate.Build_AgentResponse (py "Design content") (py "Review this")
       Debate.PROPOSING_FINAL (py "Full response"))
    (Debate.Build_AgentResponse (py "Improved design") (py "Looks good")
       Debate.ACCEPTING_FINAL (py "Full response"))
    (Debate.Build_AgentResponse [] [] Debate.PROPOSING_FINAL [])
    (Debate.Build_AgentResponse [] [] Debate.ACCEPTING_FINAL [])
    eq_refl eq_refl) as [Hsame [Hconsensus _]].
  split; [exact Hsame | apply Hconsensus; discriminate].
Defined.

(** ** The extractor applied to its own result *)

(** The header followed by a line feed does not occur across the header
    followed by a carriage return and a line feed. *)
Lemma header_lf_not_across (a : str) :
  contains header_lf (header_crlf ++ a) = contains header_lf a.
Proof.
  unfold contains, header_lf, header_crlf. simpl.
  destruct (cut _ a) as [[b c]|]; reflexivity.
Qed.

Lemma rebind_at_header_crlf (w : str) :
  contains header_lf (header_crlf ++ w) = false ->
  DemonstrateFixes.rebind_response DemonstrateFixes.design_start_patterns
    (header_crlf ++ w)
  = header_crlf ++ w.
Proof.
  intros H.
  unfold DemonstrateFixes.design_start_patterns.
  unfold DemonstrateFixes.rebind_response.
  fold header_lf. fold header_crlf. rewrite H.
  destruct (contains (py "### Design" ++ [nl]) (header_crlf ++ w)) eqn:H2.
  { apply contains_tail in H2.
    change (contains header_lf (header_crlf ++ w) = true) in H2. congruence. }
  rewrite (contains_startswith _ _ (startswith_app header_crlf w)).
  unfold split_once. rewrite cut_unfold, startswith_app.
  cbn [nth]. now rewrite skipn_prefix.
Qed.

Lemma join_app (sep : char) (xs ys : list str) :
  xs <> [] -> ys <> [] ->
  join [sep] (xs ++ ys) = join [sep] xs ++ sep :: join [sep] ys.
Proof.
  intros Hx Hy. induction xs as [|x xs IH]; [congruence|].
  destruct xs as [|x' xs].
  - destruct ys as [|y ys]; [congruence|]. apply join_cons.
  - cbn [app] in *. rewrite !join_cons, IH by discriminate.
    now rewrite <- app_assoc.
Qed.

(** The lines of a run of lines stand within the text of all lines. *)
Lemma join_within (sep : char) (pre mid post : list str) :
  mid <> [] ->
  exists a b, join [sep] (pre ++ mid ++ post) = a ++ join [sep] mid ++ b.
Proof.
  intros Hm.
  assert (Hr : exists b, join [sep] (mid ++ post) = join [sep] mid ++ b).
  { destruct post as [|p post].
    - exists []. now rewrite !app_nil_r.
    - exists (sep :: join [sep] (p :: post)). apply join_app;
        [exact Hm | discriminate]. }
  destruct Hr as [b Hb].
  destruct pre as [|p pre].
  - exists [], b. exact Hb.
  - exists (join [sep] (p :: pre) ++ [sep]), b.
    rewrite join_app; [| discriminate | now destruct mid].
    rewrite Hb, <- app_assoc. reflexivity.
Qed.

Lemma names_meta_within (a x b : str) :
  DemonstrateFixes.names_meta x = true ->
  DemonstrateFixes.names_meta (a ++ x ++ b) = true.
Proof.
  unfold DemonstrateFixes.names_meta, any. intros H.
  apply existsb_exists in H as [m [Hm Hc]].
  apply existsb_exists. exists m. split; [exact Hm|].
  now apply contains_within.
Qed.

Lemma is_stop_lstrip (l : str) :
  is_stop l = false -> is_stop (lstrip l) = false.
Proof.
  intros H. destruct (is_stop (lstrip l)) eqn:E; [|reflexivity].
  unfold is_stop, DemonstrateFixes.starts_design,
    DemonstrateFixes.starts_heading in *.
  rewrite strip_lstrip in E.
  apply andb_true_iff in E as [E Hm]. rewrite E in H. cbn [andb] in H.
  destruct (lstrip_split l) as [w [Hl _]].
  pose proof (names_meta_within w (lstrip l) [] Hm) as Hm'.
  rewrite app_nil_r, <- Hl in Hm'. rewrite Hm' in H. discriminate.
Qed.

Lemma is_stop_rstrip (l : str) :
  is_stop l = false -> is_stop (rstrip l) = false.
Proof.
  intros H. destruct (is_stop (rstrip l)) eqn:E; [|reflexivity].
  unfold is_stop, DemonstrateFixes.starts_design,
    DemonstrateFixes.starts_heading in *.
  rewrite strip_rstrip in E.
  apply andb_true_iff in E as [E Hm]. rewrite E in H. cbn [andb] in H.
  destruct (rstrip_split l) as [w [Hl _]].
  pose proof (names_meta_within [] (rstrip l) w Hm) as Hm'.
  cbn [app] in Hm'. rewrite <- Hl in Hm'. rewrite Hm' in H. discriminate.
Qed.

Lemma starts_design_lstrip (l : str) :
  DemonstrateFixes.starts_design (lstrip l) = DemonstrateFixes.starts_design l.
Proof. unfold DemonstrateFixes.starts_design. now rewrite strip_lstrip. Qed.

Lemma starts_design_rstrip (l : str) :
  DemonstrateFixes.starts_design (rstrip l) = DemonstrateFixes.starts_design l.
Proof. unfold DemonstrateFixes.starts_design. now rewrite strip_rstrip. Qed.

Lemma no_nl_lstrip (l : str) : ~ In nl l -> ~ In nl (lstrip l).
Proof.
  intros H F. apply H. destruct (lstrip_split l) as [w [-> _]].
  apply in_or_app. now right.
Qed.

Lemma no_nl_rstrip (l : str) : ~ In nl l -> ~ In nl (rstrip l).
Proof.
  intros H F. apply H. destruct (rstrip_split l) as [w [-> _]].
  apply in_or_app. now left.
Qed.

(** A line that may stand in a design: it is no stop line and holds no
    line feed. *)
Lemma rstrip_lines_body (ls : list str) :
  Forall (fun l => is_stop l = false /\ ~ In nl l) ls ->
  Forall (fun l => is_stop l = false /\ ~ In nl l) (rstrip_lines ls).
Proof.
  induction 1 as [|l ls [Hl Hn] _ IH]; cbn [rstrip_lines]; [constructor|].
  destruct (forallb blank ls).
  - repeat constructor; [now apply is_stop_rstrip | now apply no_nl_rstrip].
  - constructor; auto.
Qed.

(** The design as lines: its first line is a Design line, no line is a
    stop line, none holds a line feed. *)
Lemma design_as_lines (h : str) (body : list str) :
  DemonstrateFixes.starts_design h = true ->
  ~ In nl h ->
  Forall (fun l => is_stop l = false /\ ~ In nl l) body ->
  exists h' body',
    strip (join [nl] (h :: body)) = join [nl] (h' :: body')
    /\ DemonstrateFixes.starts_design h' = true
    /\ ~ In nl h'
    /\ Forall (fun l => is_stop l = false /\ ~ In nl l) body'.
Proof.
  intros Hh Hn Hbody.
  assert (E : strip (join [nl] (h :: body))
              = join [nl] (rstrip_lines (lstrip h :: body))).
  { unfold strip. rewrite lstrip_join by discriminate.
    cbn [lstrip_lines]. rewrite (starts_design_not_blank _ Hh).
    now rewrite rstrip_join by discriminate. }
  rewrite E. cbn [rstrip_lines]. destruct (forallb blank body).
  - exists (rstrip (lstrip h)), []. repeat split.
    + now rewrite starts_design_rstrip, starts_design_lstrip.
    + now apply no_nl_rstrip, no_nl_lstrip.
    + constructor.
  - exists (lstrip h), (rstrip_lines body). repeat split.
    + now rewrite starts_design_lstrip.
    + now apply no_nl_lstrip.
    + now apply rstrip_lines_body.
Qed.

(** A design that the start patterns leave as it is, is returned as it
    is. *)
Lemma extract_fixed (h : str) (body : list str) :
  DemonstrateFixes.starts_design h = true ->
  ~ In nl h ->
  Forall (fun l => is_stop l = false /\ ~ In nl l) body ->
  DemonstrateFixes.rebind_response DemonstrateFixes.design_start_patterns
    (strip (join [nl] (h :: body)))
  = strip (join [nl] (h :: body)) ->
  DemonstrateFixes.extract_design_section (strip (join [nl] (h :: body)))
  = strip (join [nl] (h :: body)).
Proof.
  intros Hh Hn Hbody Hr.
  destruct (design_as_lines h body Hh Hn Hbody)
    as [h' [body' [E [Hh' [Hn' Hbody']]]]].
  assert (Hs : split nl (strip (join [nl] (h :: body))) = h' :: body').
  { rewrite E. apply split_join; [discriminate|].
    constructor; [exact Hn'|].
    apply Forall_impl with (2 := Hbody'). now intros l [_ Hl]. }
  rewrite (extract_with_design _ [] h' body');
    [| now rewrite Hr | constructor | exact Hh'].
  rewrite keep_all.
  - rewrite <- E. apply strip_idem.
  - apply Forall_impl with (2 := Hbody'). now intros l [Hl _].
Qed.

(** The three ways in which the start patterns leave a design as it
    is. *)
Lemma rebind_design_lf (body : list str) :
  DemonstrateFixes.rebind_response DemonstrateFixes.design_start_patterns
    (strip (join [nl] (design_token :: body)))
  = strip (join [nl] (design_token :: body)).
Proof.
  assert (E : exists y, strip (join [nl] (design_token :: body))
                        = design_token ++ y
                        /\ (y = [] \/ exists w, y = nl :: w)).
  { destruct body as [|m ls].
    - exists []. split; [reflexivity | now left].
    - rewrite join_cons. unfold strip. rewrite lstrip_header.
      rewrite design_token_snoc, rstrip_keep by reflexivity.
      rewrite <- design_token_snoc. eexists. split; [reflexivity|].
      rewrite rstrip_cons. destruct (blank _); [now left | right; eauto]. }
  destruct E as [y [-> [-> | [w ->]]]].
  - reflexivity.
  - change (design_token ++ nl :: w) with (header_lf ++ w).
    apply rebind_at_header_lf.
Qed.

Lemma rebind_design_crlf (body : list str) :
  contains header_lf (strip (join [nl] ((design_token ++ [cr]) :: body)))
  = false ->
  DemonstrateFixes.rebind_response DemonstrateFixes.design_start_patterns
    (strip (join [nl] ((design_token ++ [cr]) :: body)))
  = strip (join [nl] ((design_token ++ [cr]) :: body)).
Proof.
  assert (E : exists y, strip (join [nl] ((design_token ++ [cr]) :: body))
                        = design_token ++ y
                        /\ (y = [] \/ exists w, y = cr :: nl :: w)).
  { destruct body as [|m ls].
    - exists []. split; [reflexivity | now left].
    - rewrite join_cons, <- app_assoc. unfold strip. rewrite lstrip_header.
      rewrite design_token_snoc, rstrip_keep by reflexivity.
      rewrite <- design_token_snoc. eexists. split; [reflexivity|].
      cbn [app]. rewrite rstrip_cons.
      destruct (blank (cr :: nl :: join [nl] (m :: ls))) eqn:Hb;
        [now left|]. right.
      rewrite rstrip_cons.
      change (blank (nl :: join [nl] (m :: ls)))
        with (blank (cr :: nl :: join [nl] (m :: ls))).
      rewrite Hb. eauto. }
  destruct E as [y [-> [-> | [w ->]]]]; intros H.
  - reflexivity.
  - change (design_token ++ cr :: nl :: w) with (header_crlf ++ w) in *.
    now apply rebind_at_header_crlf.
Qed.

(** No start pattern occurs in a design taken from a text in which none
    occurs. *)
Lemma design_within (pre : list str) (h : str) (rest : list str) (r p : str) :
  split nl r = pre ++ h :: rest ->
  contains p r = false ->
  contains p (strip (join [nl] (h :: keep rest))) = false.
Proof.
  intros Hs Hp.
  destruct (contains p (strip (join [nl] (h :: keep rest)))) eqn:E;
    [|reflexivity].
  destruct (keep_prefix rest) as [post Hpost].
  destruct (join_within nl pre (h :: keep rest) post) as [a [b Hab]];
    [discriminate|].
  cbn [app] in Hab. rewrite <- Hpost, <- Hs, join_split in Hab.
  destruct (strip_within (join [nl] (h :: keep rest))) as [c [d Hcd]].
  apply (contains_within _ c _ d) in E. rewrite <- Hcd in E.
  apply (contains_within _ a _ b) in E. rewrite <- Hab in E. congruence.
Qed.

(** C6: the extractor is idempotent. *)
Theorem extract_design_section_idempotent (response : str) :
  DemonstrateFixes.extract_design_section
    (DemonstrateFixes.extract_design_section response)
  = DemonstrateFixes.extract_design_section response.
Proof.
  destruct (first_design_line
              (split nl (DemonstrateFixes.rebind_response
                           DemonstrateFixes.design_start_patterns response)))
    as [Hnone | [pre [h [rest [Hs [Hpre Hh]]]]]].
  - (* no Design line: the response comes back as it was given *)
    assert (E : DemonstrateFixes.extract_design_section response = response).
    { rewrite (extract_without_design _ Hnone).
      destruct (rebind_unless_design response) as [Hr | [h [rest [Hs Hh]]]];
        [exact Hr|].
      rewrite Hs in Hnone. inversion Hnone as [|? ? Hd _]; subst.
      rewrite (header_line_starts_design _ Hh) in Hd. discriminate. }
    now rewrite !E.
  - rewrite (extract_with_design response pre h rest Hs Hpre Hh).
    pose proof (split_lines_nosep nl
                  (DemonstrateFixes.rebind_response
                     DemonstrateFixes.design_start_patterns response)) as Hnl.
    rewrite Hs in Hnl. apply Forall_app in Hnl as [_ Hnl].
    inversion Hnl as [|? ? Hnh Hnrest]; subst.
    assert (Hbody : Forall (fun l => is_stop l = false /\ ~ In nl l)
                           (keep rest)).
    { destruct (keep_prefix rest) as [post Hpost].
      rewrite Hpost in Hnrest. apply Forall_app in Hnrest as [Hk _].
      pose proof (keep_no_stop rest) as Hst.
      apply Forall_forall. intros l Hl. split.
      - now apply (proj1 (Forall_forall _ _) Hst).
      - now apply (proj1 (Forall_forall _ _) Hk). }
    apply extract_fixed; [exact Hh | exact Hnh | exact Hbody |].
    destruct (rebind_cases response)
      as [[b [a [_ Hr]]] | [[H1 [b [a [Hresp Hr]]]] | [H1 [H3 Hr]]]].
    + (* the first pattern has rebound the response *)
      rewrite Hr, split_header_lf in Hs.
      destruct pre as [|l pre].
      * injection Hs as <- _. apply rebind_design_lf.
      * injection Hs as <- _. inversion Hpre as [|? ? Hd _]; subst.
        discriminate.
    + (* the third pattern has *)
      assert (Hlf : contains header_lf
                      (DemonstrateFixes.rebind_response
                         DemonstrateFixes.design_start_patterns response)
                    = false).
      { rewrite Hr, header_lf_not_across.
        destruct (contains header_lf a) eqn:Ha; [|reflexivity].
        apply (contains_within _ (b ++ header_crlf) _ []) in Ha.
        rewrite app_nil_r, <- app_assoc, <- Hresp in Ha. congruence. }
      pose proof (design_within pre h rest _ _ Hs Hlf) as HD.
      rewrite Hr, split_header_crlf in Hs.
      destruct pre as [|l pre].
      * injection Hs as <- _. now apply rebind_design_crlf.
      * injection Hs as <- _. inversion Hpre as [|? ? Hd _]; subst.
        discriminate.
    + (* no pattern occurs *)
      rewrite Hr in Hs.
      apply rebind_none; apply (design_within pre h rest response); auto.
Qed.

(** * Further properties of the scripts *)

(** ** The first line that passes a test *)

Lemma first_match (f : str -> bool) (lines : list str) :
  Forall (fun l => f l = false) lines
  \/ exists pre h rest,
       lines = pre ++ h :: rest
       /\ Forall (fun l => f l = false) pre
       /\ f h = true.
Proof.
  induction lines as [|l lines IH]; [now left|].
  destruct (f l) eqn:Hl.
  - right. exists [], l, lines. auto.
  - destruct IH as [IH | [pre [h [rest [-> [Hpre Hh]]]]]].
    + left. now constructor.
    + right. exists (l :: pre), h, rest. repeat split; auto.
Qed.

Lemma exists_header_line (lines : list str) :
  Exists (fun l => startswith design_token (strip l) = true) lines ->
  exists pre h rest,
    lines = pre ++ h :: rest
    /\ Forall (fun l => startswith design_token (strip l) = false) pre
    /\ startswith design_token (strip h) = true.
Proof.
  intros H.
  destruct (first_match (fun l => startswith design_token (strip l)) lines)
    as [Hn | Hf]; [|exact Hf].
  exfalso. apply Exists_exists in H as [l [Hin Hl]].
  rewrite Forall_forall in Hn. rewrite (Hn l Hin) in Hl. discriminate.
Qed.

Lemma header_line_not_blank (h : str) :
  startswith design_token (strip h) = true -> blank h = false.
Proof.
  intros H. apply starts_design_not_blank.
  now apply header_line_starts_design.
Qed.

(** A text whose first line that is not blank is a header line begins
    with the header once its left end is trimmed. *)
Lemma blank_preamble_at_front (pre : list str) (h : str) (post : list str) :
  Forall (fun l => blank l = true) pre ->
  startswith design_token (strip h) = true ->
  startswith design_token (lstrip (join [nl] (pre ++ h :: post))) = true.
Proof.
  intros Hpre Hh. induction Hpre as [|l pre Hl _ IH]; cbn [app].
  - destruct (join_head h post) as [y ->].
    rewrite lstrip_app, (header_line_not_blank _ Hh).
    now apply startswith_app_l, startswith_strip_lstrip.
  - destruct (pre ++ h :: post) as [|m ls] eqn:E; [now destruct pre|].
    rewrite join_cons, lstrip_app, Hl. exact IH.
Qed.

Lemma blank_or_not (pre : list str) :
  Forall (fun l => blank l = true) pre
  \/ Exists (fun l => blank l = false) pre.
Proof.
  induction pre as [|l pre [IH|IH]]; [now left | |].
  - destruct (blank l) eqn:Hl; [left | right]; now constructor.
  - right. now apply Exists_cons_tl.
Qed.

Lemma numbered_from_not_nil (pre : list str) (i : nat) :
  Exists (fun l => blank l = false) pre ->
  filter (fun e : nat * str => negb (blank (snd e)))
    (combine (seq i (List.length pre)) pre) <> [].
Proof.
  intros H; revert i; induction H as [l pre Hl | l pre _ IH]; intros i;
    cbn [List.length seq combine filter snd].
  - rewrite Hl. discriminate.
  - destruct (negb (blank l)); [discriminate | apply IH].
Qed.

(** ** The validator, once more *)

Lemma validate_true_inv (response agent_name : str) :
  fst (validate_response_format response agent_name) = true ->
  startswith design_token (lstrip response) = true
  /\ validate_response_format response agent_name = (true, []).
Proof.
  intros H. destruct (startswith design_token (lstrip response)) eqn:E.
  - split; [reflexivity | now apply validate_accepts].
  - rewrite (validate_rejects _ agent_name E) in H. discriminate.
Qed.

(** The message of the validator is empty on success only. *)
Theorem validate_message_empty_iff_valid (response agent_name : str) :
  snd (validate_response_format response agent_name) = []
  <-> fst (validate_response_format response agent_name) = true.
Proof.
  unfold validate_response_format.
  destruct (startswith design_token (lstrip response)); cbn [negb].
  - split; reflexivity.
  - destruct (find_design (split nl response) 0 []) as [[n|] pl];
      cbn [fst snd]; (split; [|discriminate]); intros H; exfalso.
    + unfold preamble_message in H. apply app_eq_nil in H as [_ H].
      discriminate.
    + unfold missing_message in H. apply app_eq_nil in H as [_ H].
      discriminate.
Qed.

(** Whenever the validator rejects a response that has a header line,
    that line is not the first and a line in front of it is not blank:
    the number it reports is 2 at least and its list of offending lines
    is not empty. *)
Theorem preamble_report_is_never_empty (response agent_name : str)
    (pre : list str) (h : str) (post : list str) :
  split nl response = pre ++ h :: post ->
  Forall (fun l => startswith design_token (strip l) = false) pre ->
  startswith design_token (strip h) = true ->
  fst (validate_response_format response agent_name) = false ->
  Exists (fun l => blank l = false) pre
  /\ 2 <= List.length pre + 1
  /\ firstn 5 (numbered_nonblank pre) <> []
  /\ validate_response_format response agent_name
     = (false,
        preamble_message agent_name (List.length pre)
          (join [nl]
             (map (fun e => preamble_entry (fst e) (snd e))
                (firstn 5 (numbered_nonblank pre))))).
Proof.
  intros Hs Hpre Hh Hv.
  assert (Hex : Exists (fun l => blank l = false) pre).
  { destruct (blank_or_not pre) as [Hb | Hex]; [|exact Hex].
    exfalso.
    pose proof (blank_preamble_at_front pre h post Hb Hh) as F.
    rewrite <- Hs, join_split in F.
    rewrite (validate_accepts _ agent_name F) in Hv. discriminate. }
  split; [exact Hex|]. split; [|split].
  - destruct Hex; cbn [List.length]; lia.
  - pose proof (numbered_from_not_nil pre 0 Hex) as Hn.
    unfold numbered_nonblank.
    destruct (filter _ _); [congruence | discriminate].
  - unfold validate_response_format.
    rewrite <- (join_split nl response) at 1. rewrite Hs.
    rewrite (preamble_not_at_front pre h post Hpre Hex). cbn [negb].
    rewrite (find_design_found pre h post 0 [] Hpre Hh). cbn [app Nat.add].
    now rewrite firstn_map.
Qed.

Lemma preamble_report_is_never_empty_witness :
  Exists (fun l => blank l = false) [py "Let me address this."; []]
  /\ validate_response_format
       (py "Let me address this." ++ [nl; nl] ++ py "## Design")
       (py "Agent B")
     = (false,
        preamble_message (py "Agent B") 2
          (py "  Line 1: Let me address this.")).
Proof.
  destruct (preamble_report_is_never_empty
              (py "Let me address this." ++ [nl; nl] ++ py "## Design")
              (py "Agent B")
              [py "Let me address this."; []] (py "## Design") [])
    as [Hex [_ [_ Hv]]].
  - reflexivity.
  - repeat constructor.
  - reflexivity.
  - reflexivity.
  - split; [exact Hex | exact Hv].
Defined.

(** ** The extractor that keeps everything from the header on *)

Lemma skipn_past {A} (xs ys : list A) : skipn (List.length xs) (xs ++ ys) = ys.
Proof. induction xs; simpl; auto. Qed.

Lemma find_start_found (pre : list str) (h : str) (post : list str) (i : nat) :
  Forall (fun l => startswith design_token (strip l) = false) pre ->
  startswith design_token (strip h) = true ->
  TestFormatEnforcement.find_start (pre ++ h :: post) i
  = Some (i + List.length pre).
Proof.
  intros Hpre Hh; revert i.
  induction Hpre as [|l pre Hl _ IH]; intros i;
    cbn [TestFormatEnforcement.find_start app List.length].
  - now rewrite Hh, Nat.add_0_r.
  - rewrite Hl, IH. f_equal. lia.
Qed.

Lemma simple_extract_found (response : str) (pre : list str) (h : str)
    (post : list str) :
  split nl response = pre ++ h :: post ->
  Forall (fun l => startswith design_token (strip l) = false) pre ->
  startswith design_token (strip h) = true ->
  TestFormatEnforcement.extract_design_section response
  = join [nl] (h :: post).
Proof.
  intros Hs Hpre Hh. unfold TestFormatEnforcement.extract_design_section.
  rewrite Hs, (find_start_found pre h post 0 Hpre Hh). cbn [Nat.add].
  now rewrite skipn_past.
Qed.

Lemma simple_extract_none (response : str) :
  Forall (fun l => startswith design_token (strip l) = false)
         (split nl response) ->
  TestFormatEnforcement.extract_design_section response = response.
Proof.
  intros H. unfold TestFormatEnforcement.extract_design_section.
  now rewrite find_start_none.
Qed.

Lemma header_line_at_front (h : str) (post : list str) :
  startswith design_token (strip h) = true ->
  startswith design_token (lstrip (join [nl] (h :: post))) = true.
Proof. intros H. now apply (blank_preamble_at_front [] h post). Qed.

Lemma header_line_exists (pre : list str) (h : str) (post : list str) :
  startswith design_token (strip h) = true ->
  Exists (fun l => startswith design_token (strip l) = true)
         (pre ++ h :: post).
Proof. intros H. apply Exists_app. right. now constructor. Qed.

Lemma no_header_line (lines : list str) :
  Forall (fun l => startswith design_token (strip l) = false) lines ->
  ~ Exists (fun l => startswith design_token (strip l) = true) lines.
Proof.
  intros Hn H. apply Exists_exists in H as [l [Hin Hl]].
  rewrite Forall_forall in Hn. rewrite (Hn l Hin) in Hl. discriminate.
Qed.

(** The response is what the extractor drops, empty or ended by a line
    break, followed by what it returns. *)
Lemma simple_extract_suffix (response : str) :
  exists dropped,
    response
    = dropped ++ TestFormatEnforcement.extract_design_section response
    /\ (dropped = [] \/ exists d, dropped = d ++ [nl]).
Proof.
  destruct (first_match (fun l => startswith design_token (strip l))
              (split nl response))
    as [Hn | [pre [h [post [Hs [Hpre Hh]]]]]].
  - exists []. rewrite (simple_extract_none _ Hn). auto.
  - rewrite (simple_extract_found _ pre h post Hs Hpre Hh).
    destruct pre as [|p pre].
    + exists []. split; [|now left].
      cbn [app] in *. now rewrite <- Hs, join_split.
    + exists (join [nl] (p :: pre) ++ [nl]). split; [|right; eauto].
      rewrite <- (join_split nl response) at 1. rewrite Hs.
      rewrite join_app by discriminate. now rewrite <- app_assoc.
Qed.

(** What the header-onward extractor returns is accepted by the
    validator exactly when some line of the response begins, trimmed,
    with [## Design]. *)
Theorem simple_extraction_valid_iff_header_line (response agent_name : str) :
  fst (validate_response_format
         (TestFormatEnforcement.extract_design_section response) agent_name)
  = true
  <-> Exists (fun l => startswith design_token (strip l) = true)
             (split nl response).
Proof.
  destruct (first_match (fun l => startswith design_token (strip l))
              (split nl response))
    as [Hn | [pre [h [post [Hs [Hpre Hh]]]]]].
  - rewrite (simple_extract_none _ Hn), (validate_missing _ agent_name Hn).
    split; [discriminate|]. intros H. now apply no_header_line in Hn.
  - rewrite (simple_extract_found _ pre h post Hs Hpre Hh).
    rewrite validate_accepts by now apply header_line_at_front.
    split; [|reflexivity]. intros _. rewrite Hs.
    now apply header_line_exists.
Qed.

(** The header-onward extractor is idempotent. *)
Theorem simple_extraction_idempotent (response : str) :
  TestFormatEnforcement.extract_design_section
    (TestFormatEnforcement.extract_design_section response)
  = TestFormatEnforcement.extract_design_section response.
Proof.
  destruct (first_match (fun l => startswith design_token (strip l))
              (split nl response))
    as [Hn | [pre [h [post [Hs [Hpre Hh]]]]]].
  - now rewrite !(simple_extract_none _ Hn).
  - rewrite (simple_extract_found _ pre h post Hs Hpre Hh).
    apply (simple_extract_found _ [] h post); [|constructor | exact Hh].
    apply split_join; [discriminate|].
    pose proof (split_lines_nosep nl response) as Hnl.
    rewrite Hs in Hnl. now apply Forall_app in Hnl as [_ Hnl].
Qed.

(** The header-onward extractor only drops whole lines from the front:
    the response is what it drops, empty or ended by a line break,
    followed by what it returns; and it drops nothing from a response
    whose first line is a header line. *)
Theorem simple_extraction_drops_leading_lines (response : str) :
  (exists dropped,
     response
     = dropped ++ TestFormatEnforcement.extract_design_section response
     /\ (dropped = [] \/ exists d, dropped = d ++ [nl]))
  /\ (startswith design_token (strip (hd [] (split nl response))) = true ->
      TestFormatEnforcement.extract_design_section response = response).
Proof.
  split; [apply simple_extract_suffix|].
  intros Hh. destruct (split nl response) as [|h post] eqn:Hs;
    [now apply split_ne in Hs|].
  rewrite (simple_extract_found _ [] h post Hs (Forall_nil _) Hh).
  now rewrite <- Hs, join_split.
Qed.

Lemma simple_extraction_drops_leading_lines_witness :
  TestFormatEnforcement.extract_design_section
    (py "  ## Design" ++ [nl] ++ py "# API" ++ [nl])
  = py "  ## Design" ++ [nl] ++ py "# API" ++ [nl].
Proof.
  apply (proj2 (simple_extraction_drops_leading_lines
                  (py "  ## Design" ++ [nl] ++ py "# API" ++ [nl]))).
  reflexivity.
Defined.

(** ** One simulated round *)

(** A round succeeds exactly when some line of the response begins,
    trimmed, with [## Design]; the text it then returns is accepted by
    the validator, and the text of a failed round is the response as it
    was given. *)
Theorem simulated_round_succeeds_iff_header_line (agent_name response : str) :
  (fst (snd (TestEndToEnd.simulate_debate_round agent_name response)) = true
   <-> Exists (fun l => startswith design_token (strip l) = true)
              (split nl response))
  /\ (fst (snd (TestEndToEnd.simulate_debate_round agent_name response))
      = true ->
      validate_response_format
        (snd (snd (TestEndToEnd.simulate_debate_round agent_name response)))
        agent_name
      = (true, []))
  /\ (fst (snd (TestEndToEnd.simulate_debate_round agent_name response))
      = false ->
      snd (snd (TestEndToEnd.simulate_debate_round agent_name response))
      = response).
Proof.
  unfold TestEndToEnd.simulate_debate_round.
  destruct (validate_response_format response agent_name) as [v msg] eqn:Ev.
  destruct v; cbn [negb].
  - (* compliant *)
    assert (Hv : fst (validate_response_format response agent_name) = true)
      by now rewrite Ev.
    apply validate_true_inv in Hv as [Hfront Hval].
    cbn [fst snd]. split; [|split]; [| |discriminate].
    + split; [|reflexivity]. intros _.
      rewrite <- (join_split nl response) in Hfront.
      apply header_at_front in Hfront; [|apply split_ne].
      destruct Hfront as [pre [h [post [-> [_ Hh]]]]].
      now apply header_line_exists.
    + intros _. exact Hval.
  - (* cleaned *)
    destruct (first_match (fun l => startswith design_token (strip l))
                (split nl response))
      as [Hn | [pre [h [post [Hs [Hpre Hh]]]]]].
    + rewrite (simple_extract_none _ Hn), Ev. cbn [fst snd].
      split; [|split]; [|discriminate|reflexivity].
      split; [discriminate|]. intros H. now apply no_header_line in Hn.
    + rewrite (simple_extract_found _ pre h post Hs Hpre Hh).
      pose proof (validate_accepts _ agent_name
                    (header_line_at_front h post Hh)) as Hc.
      rewrite Hc. cbn [fst snd]. split; [|split]; [|auto|discriminate].
      split; [|reflexivity]. intros _. rewrite Hs.
      now apply header_line_exists.
Qed.

Lemma simulated_round_succeeds_iff_header_line_witness :
  validate_response_format
    (snd (snd (TestEndToEnd.simulate_debate_round (py "Agent A")
                 (py "I propose this." ++ [nl; nl] ++ py "## Design"
                  ++ [nl] ++ py "# Blog API"))))
    (py "Agent A")
  = (true, []).
Proof.
  apply (proj1 (proj2 (simulated_round_succeeds_iff_header_line
    (py "Agent A")
    (py "I propose this." ++ [nl; nl] ++ py "## Design" ++ [nl]
     ++ py "# Blog API")))).
  reflexivity.
Defined.

(** A round returns the response without some whole lines at its front,
    and none when the response is compliant; for a response that is not,
    its eighth [print] call writes the count of removed characters, which
    is the length of what was dropped, so it is never negative. *)
Theorem simulated_round_removes_a_prefix (agent_name response : str) :
  exists dropped,
    response
    = dropped
      ++ snd (snd (TestEndToEnd.simulate_debate_round agent_name response))
    /\ (dropped = [] \/ exists d, dropped = d ++ [nl])
    /\ (fst (validate_response_format response agent_name) = true ->
        dropped = [])
    /\ (fst (validate_response_format response agent_name) = false ->
        nth_error
          (fst (TestEndToEnd.simulate_debate_round agent_name response)) 7
        = Some (py "  Removed "
                ++ str_of_Z (Z.of_nat (List.length dropped))
                ++ py " characters of preamble")).
Proof.
  assert (Hlen : forall d t : str,
            (len (d ++ t) - len t)%Z = Z.of_nat (List.length d)).
  { intros d t. unfold len. rewrite length_app. lia. }
  unfold TestEndToEnd.simulate_debate_round.
  destruct (validate_response_format response agent_name) as [v msg].
  destruct v; cbn [negb fst snd].
  - exists []. repeat split; auto. discriminate.
  - destruct (simple_extract_suffix response) as [dropped [E Hd]].
    exists dropped.
    destruct (validate_response_format
                (TestFormatEnforcement.extract_design_section response)
                agent_name) as [w msg'].
    destruct w; cbn [fst snd]; (split; [exact E|]); (split; [exact Hd|]);
      (split; [discriminate|]); intros _; cbn [app nth_error];
      rewrite E at 1; now rewrite Hlen.
Qed.

Lemma simulated_round_removes_a_prefix_witness :
  nth_error
    (fst (TestEndToEnd.simulate_debate_round (py "Agent A")
            (py "I propose this." ++ [nl; nl] ++ py "## Design")))
    7
  = Some (py "  Removed 17 characters of preamble").
Proof.
  destruct (simulated_round_removes_a_prefix (py "Agent A")
              (py "I propose this." ++ [nl; nl] ++ py "## Design"))
    as [dropped [E [_ [_ H]]]].
  rewrite H by reflexivity.
  apply (f_equal (@List.length char)) in E.
  rewrite (length_app dropped) in E.
  assert (Hd : List.length dropped = 17)
    by (apply (Nat.add_cancel_r _ _ 9); exact (eq_sym E)).
  now rewrite Hd.
Defined.

(** ** The extractor that cuts at meta sections, once more *)

(** The rebound response is an end piece of the response. *)
Lemma rebind_suffix (response : str) :
  exists b,
    response
    = b ++ DemonstrateFixes.rebind_response
             DemonstrateFixes.design_start_patterns response.
Proof.
  destruct (rebind_cases response)
    as [[b [a [Hs ->]]] | [[_ [b [a [Hs ->]]]] | [_ [_ ->]]]].
  - now exists b.
  - now exists b.
  - now exists [].
Qed.

Lemma design_piece (pre : list str) (h : str) (rest : list str) (r : str) :
  split nl r = pre ++ h :: rest ->
  exists a b, r = a ++ strip (join [nl] (h :: keep rest)) ++ b.
Proof.
  intros Hs.
  destruct (keep_prefix rest) as [post Hpost].
  destruct (join_within nl pre (h :: keep rest) post) as [a [b Hab]];
    [discriminate|].
  cbn [app] in Hab. rewrite <- Hpost, <- Hs, join_split in Hab.
  destruct (strip_within (join [nl] (h :: keep rest))) as [c [d Hcd]].
  exists (a ++ c), (d ++ b). rewrite Hab, Hcd at 1.
  now rewrite <- !app_assoc.
Qed.

(** Without a Design line the start patterns have not rebound the
    response. *)
Lemma no_design_not_rebound (response : str) :
  Forall (fun l => DemonstrateFixes.starts_design l = false)
    (split nl (DemonstrateFixes.rebind_response
                 DemonstrateFixes.design_start_patterns response)) ->
  DemonstrateFixes.rebind_response
    DemonstrateFixes.design_start_patterns response
  = response.
Proof.
  intros Hnone.
  destruct (rebind_unless_design response) as [Hr | [h [rest [Hs Hh]]]];
    [exact Hr|].
  rewrite Hs in Hnone. inversion Hnone as [|? ? Hd _]; subst.
  rewrite (header_line_starts_design _ Hh) in Hd. discriminate.
Qed.

(** The extractor returns one piece of the response: it adds nothing and
    changes no order, and what it returns is no longer than the
    response. *)
Theorem extraction_returns_a_piece (response : str) :
  exists a b,
    response = a ++ DemonstrateFixes.extract_design_section response ++ b
    /\ List.length (DemonstrateFixes.extract_design_section response)
       <= List.length response.
Proof.
  assert (Hlen : forall a x b : str,
            response = a ++ x ++ b -> List.length x <= List.length response).
  { intros a x b ->. rewrite !length_app. lia. }
  destruct (rebind_suffix response) as [b0 Hb0].
  destruct (first_design_line
              (split nl (DemonstrateFixes.rebind_response
                           DemonstrateFixes.design_start_patterns response)))
    as [Hnone | [pre [h [rest [Hs [Hpre Hh]]]]]].
  - rewrite (extract_without_design _ Hnone).
    exists b0, []. rewrite app_nil_r. split; [exact Hb0|].
    apply (Hlen b0 _ []). now rewrite app_nil_r.
  - rewrite (extract_with_design response pre h rest Hs Hpre Hh).
    destruct (design_piece pre h rest _ Hs) as [a [b Hab]].
    assert (E : response
                = (b0 ++ a) ++ strip (join [nl] (h :: keep rest)) ++ b).
    { rewrite Hb0 at 1. rewrite Hab at 1. now rewrite <- app_assoc. }
    exists (b0 ++ a), b. split; [exact E | exact (Hlen _ _ _ E)].
Qed.

(** The extractor either returns the response as it is, and then no line
    of the response begins, trimmed, with [## Design] or [### Design]; or
    it returns a text without white space at its ends that begins with
    one of the two and none of whose lines is a stop line. *)
Theorem extraction_result_shape (response : str) :
  (DemonstrateFixes.extract_design_section response = response
   /\ Forall (fun l => DemonstrateFixes.starts_design l = false)
             (split nl response))
  \/ (strip (DemonstrateFixes.extract_design_section response)
      = DemonstrateFixes.extract_design_section response
      /\ startswith (py "## Design")
           (DemonstrateFixes.extract_design_section response)
         || startswith (py "### Design")
              (DemonstrateFixes.extract_design_section response)
         = true
      /\ Forall (fun l => is_stop l = false)
           (split nl (DemonstrateFixes.extract_design_section response))).
Proof.
  destruct (first_design_line
              (split nl (DemonstrateFixes.rebind_response
                           DemonstrateFixes.design_start_patterns response)))
    as [Hnone | [pre [h [rest [Hs [Hpre Hh]]]]]].
  - left. rewrite (extract_without_design _ Hnone).
    pose proof (no_design_not_rebound _ Hnone) as Hr.
    rewrite Hr in *. auto.
  - right. rewrite (extract_with_design response pre h rest Hs Hpre Hh).
    split; [apply strip_idem|]. split.
    + unfold DemonstrateFixes.starts_design in Hh.
      apply orb_true_iff in Hh as [H3 | H2]; apply orb_true_iff.
      * right. change (py "### Design") with (py "### Desig" ++ [110%N]) in *.
        now apply design_starts_like_first_line.
      * left. change (py "## Design") with (py "## Desig" ++ [110%N]) in *.
        now apply design_starts_like_first_line.
    + pose proof (split_lines_nosep nl
                    (DemonstrateFixes.rebind_response
                       DemonstrateFixes.design_start_patterns response))
        as Hnl.
      rewrite Hs in Hnl. apply Forall_app in Hnl as [_ Hnl].
      inversion Hnl as [|? ? Hnh Hnrest]; subst.
      assert (Hbody : Forall (fun l => is_stop l = false /\ ~ In nl l)
                             (keep rest)).
      { destruct (keep_prefix rest) as [post Hpost].
        rewrite Hpost in Hnrest. apply Forall_app in Hnrest as [Hk _].
        pose proof (keep_no_stop rest) as Hst.
        apply Forall_forall. intros l Hl. split.
        - now apply (proj1 (Forall_forall _ _) Hst).
        - now apply (proj1 (Forall_forall _ _) Hk). }
      destruct (design_as_lines h (keep rest) Hh Hnh Hbody)
        as [h' [body' [E [Hh' [Hn' Hbody']]]]].
      rewrite E, split_join; [|discriminate|].
      * constructor.
        -- unfold is_stop. now rewrite Hh'.
        -- apply Forall_impl with (2 := Hbody'). now intros l [Hl _].
      * constructor; [exact Hn'|].
        apply Forall_impl with (2 := Hbody'). now intros l [_ Hl].
Qed.

(** ** The diagnosis script *)

Lemma clean_from_cons (pattern : str) (rest : list str) (s : str) :
  DiagnoseFormat.clean_from (pattern :: rest) s
  = if contains pattern s then pattern ++ nth 1 (split_once pattern s) []
    else DiagnoseFormat.clean_from rest s.
Proof.
  cbn [DiagnoseFormat.clean_from]. unfold contains, split_once.
  destruct (cut pattern s) as [[b a]|]; reflexivity.
Qed.

Lemma clean_is_rebind_eq (response_text : str) :
  DiagnoseFormat.extract_and_clean_design response_text
  = DemonstrateFixes.rebind_response DemonstrateFixes.design_start_patterns
      response_text.
Proof.
  unfold DiagnoseFormat.extract_and_clean_design,
    DiagnoseFormat.design_patterns, DemonstrateFixes.design_start_patterns.
  rewrite !clean_from_cons. cbn [DiagnoseFormat.clean_from].
  cbn [DemonstrateFixes.rebind_response].
  destruct (contains (py "## Design" ++ [nl]) response_text);
    [reflexivity|].
  destruct (contains (py "### Design" ++ [nl]) response_text);
    [reflexivity|].
  destruct (contains (py "## Design" ++ [cr; nl]) response_text) eqn:H3;
    [reflexivity|].
  destruct (contains (py "### Design" ++ [cr; nl]) response_text) eqn:H4;
    [|reflexivity].
  apply contains_tail in H4.
  change (contains (py "## Design" ++ [cr; nl]) response_text = true) in H4.
  congruence.
Qed.


(** The cleaning of the diagnosis script is the first step of the
    extractor of src/demonstrate_fixes.py: its three patterns decide as
    the four of that extractor do.  So it returns the response unchanged
    when neither the header with a line feed nor the header with a
    carriage return and a line feed occurs in it, and otherwise the first
    of the two that occurs followed by what comes after its first
    occurrence. *)
Theorem clean_is_rebind (response_text : str) :
  DiagnoseFormat.extract_and_clean_design response_text
  = DemonstrateFixes.rebind_response DemonstrateFixes.design_start_patterns
      response_text
  /\ (contains header_lf response_text = false ->
      contains header_crlf response_text = false ->
      DiagnoseFormat.extract_and_clean_design response_text = response_text)
  /\ (forall before after,
        cut header_lf response_text = Some (before, after) ->
        DiagnoseFormat.extract_and_clean_design response_text
        = header_lf ++ after)
  /\ (forall before after,
        contains header_lf response_text = false ->
        cut header_crlf response_text = Some (before, after) ->
        DiagnoseFormat.extract_and_clean_design response_text
        = header_crlf ++ after).
Proof.
  split; [apply clean_is_rebind_eq|]. split; [|split].
  - intros H1 H3. rewrite clean_is_rebind_eq. now apply rebind_none.
  - intros before after Hc.
    unfold DiagnoseFormat.extract_and_clean_design,
      DiagnoseFormat.design_patterns.
    rewrite clean_from_cons. fold header_lf.
    unfold contains, split_once. now rewrite Hc.
  - intros before after H1 Hc.
    unfold DiagnoseFormat.extract_and_clean_design,
      DiagnoseFormat.design_patterns.
    rewrite !clean_from_cons. fold header_lf. fold header_crlf. rewrite H1.
    destruct (contains (py "### Design" ++ [nl]) response_text) eqn:H2.
    { apply contains_tail in H2.
      change (contains header_lf response_text = true) in H2. congruence. }
    unfold contains, split_once. now rewrite Hc.
Qed.

Lemma clean_is_rebind_witness :
  DiagnoseFormat.extract_and_clean_design
    (py "Agreed." ++ [nl] ++ py "### Design" ++ [nl] ++ py "# API")
  = py "## Design" ++ [nl] ++ py "# API".
Proof.
  apply (proj1 (proj2 (proj2 (clean_is_rebind
    (py "Agreed." ++ [nl] ++ py "### Design" ++ [nl] ++ py "# API"))))
    (py "Agreed." ++ [nl] ++ py "#") (py "# API")).
  reflexivity.
Defined.

Lemma rebind_idempotent (s : str) :
  DemonstrateFixes.rebind_response DemonstrateFixes.design_start_patterns
    (DemonstrateFixes.rebind_response
       DemonstrateFixes.design_start_patterns s)
  = DemonstrateFixes.rebind_response DemonstrateFixes.design_start_patterns s.
Proof.
  destruct (rebind_cases s)
    as [[b [a [_ Hr]]] | [[H1 [b [a [Hs Hr]]]] | [_ [_ Hr]]]];
    rewrite Hr.
  - apply rebind_at_header_lf.
  - apply rebind_at_header_crlf. rewrite header_lf_not_across.
    destruct (contains header_lf a) eqn:Ha; [|reflexivity].
    apply (contains_within _ (b ++ header_crlf) _ []) in Ha.
    rewrite app_nil_r, <- app_assoc, <- Hs in Ha. congruence.
  - exact Hr.
Qed.

(** Cleaning twice is cleaning once, and the cleaned text is an end piece
    of the response. *)
Theorem clean_idempotent_and_suffix (response_text : str) :
  DiagnoseFormat.extract_and_clean_design
    (DiagnoseFormat.extract_and_clean_design response_text)
  = DiagnoseFormat.extract_and_clean_design response_text
  /\ exists dropped,
       response_text
       = dropped ++ DiagnoseFormat.extract_and_clean_design response_text.
Proof.
  split.
  - rewrite !clean_is_rebind_eq. apply rebind_idempotent.
  - rewrite clean_is_rebind_eq. apply rebind_suffix.
Qed.



(** ** The analysis of test results *)

Lemma count_ones {A} (xs : list A) :
  list_sum (map (fun _ => 1) xs) = List.length xs.
Proof. induction xs; simpl; auto. Qed.

Lemma collect_issues_acc (Path : Type) (name : Path -> str)
    (results : list (IterativeTestFix.TestResult Path))
    (issues : list IterativeTestFix.Issue) :
  IterativeTestFix.collect_issues name results issues
  = issues ++ IterativeTestFix.collect_issues name results [].
Proof.
  revert issues; induction results as [|r results IH]; intros issues;
    cbn [IterativeTestFix.collect_issues].
  - now rewrite app_nil_r.
  - destruct (negb (IterativeTestFix.passed r)); [|apply IH].
    rewrite IH. cbn [app]. rewrite (IH [_]). now rewrite <- app_assoc.
Qed.

Lemma filter_split_length {A} (f : A -> bool) (xs : list A) :
  List.length (filter f xs) + List.length (filter (fun x => negb (f x)) xs)
  = List.length xs.
Proof.
  induction xs as [|x xs IH]; simpl; [reflexivity|].
  destruct (f x); simpl; lia.
Qed.

(** The counts of the analysis add up to the number of results; there is
    one issue for each failed result, with its name and details, in the
    order of the results; and no test has failed exactly when no issue is
    listed, which is when every result has passed. *)
Theorem analysis_counts_add_up (Path : Type) (name : Path -> str)
    (results : list (IterativeTestFix.TestResult Path)) :
  let analysis := IterativeTestFix.analyze_results name results in
  IterativeTestFix.analysis_passed analysis
  + IterativeTestFix.analysis_failed analysis
  = IterativeTestFix.analysis_total analysis
  /\ IterativeTestFix.analysis_total analysis = List.length results
  /\ List.length (IterativeTestFix.analysis_issues analysis)
     = IterativeTestFix.analysis_failed analysis
  /\ map (fun i => (IterativeTestFix.issue_test i,
                    IterativeTestFix.issue_details i))
       (IterativeTestFix.analysis_issues analysis)
     = map (fun r => (IterativeTestFix.test_name r,
                      IterativeTestFix.details r))
         (filter (fun r => negb (IterativeTestFix.passed r)) results)
  /\ (IterativeTestFix.analysis_failed analysis = 0
      <-> forallb (fun r => IterativeTestFix.passed r) results = true).
Proof.
  cbv zeta. unfold IterativeTestFix.analyze_results.
  cbn [IterativeTestFix.analysis_passed IterativeTestFix.analysis_failed
       IterativeTestFix.analysis_total IterativeTestFix.analysis_issues].
  rewrite !count_ones.
  assert (Hissues :
    map (fun i => (IterativeTestFix.issue_test i,
                   IterativeTestFix.issue_details i))
      (IterativeTestFix.collect_issues name results [])
    = map (fun r => (IterativeTestFix.test_name r,
                     IterativeTestFix.details r))
        (filter (fun r => negb (IterativeTestFix.passed r)) results)).
  { induction results as [|r results IH];
      cbn [IterativeTestFix.collect_issues filter]; [reflexivity|].
    destruct (negb (IterativeTestFix.passed r)); [|exact IH].
    rewrite collect_issues_acc. cbn [app map]. now rewrite IH. }
  split; [apply filter_split_length|]. split; [reflexivity|].
  split; [|split; [exact Hissues|]].
  - apply (f_equal (@List.length _)) in Hissues.
    now rewrite !length_map in Hissues.
  - clear Hissues.
    induction results as [|r results IH]; cbn [filter forallb];
      [split; reflexivity|].
    destruct (IterativeTestFix.passed r); cbn [negb andb List.length].
    + exact IH.
    + split; discriminate.
Qed.

(** ** When extraction repairs a response *)

Lemma level3_is_not_header (x : str) :
  startswith design_token (py "### Design" ++ x) = false.
Proof. reflexivity. Qed.

Lemma no_design_no_header (lines : list str) :
  Forall (fun l => DemonstrateFixes.starts_design l = false) lines ->
  Forall (fun l => startswith design_token (strip l) = false) lines.
Proof.
  intros H. apply Forall_impl with (2 := H). intros l Hl.
  unfold DemonstrateFixes.starts_design in Hl.
  now apply orb_false_iff in Hl as [_ Hl].
Qed.

(** The design taken from a first Design line is accepted by the
    validator exactly when that line begins, trimmed, with [## Design]
    rather than with [### Design]. *)
Lemma design_valid_iff (h : str) (body : list str) (agent_name : str) :
  DemonstrateFixes.starts_design h = true ->
  fst (validate_response_format (strip (join [nl] (h :: body))) agent_name)
  = startswith design_token (strip h).
Proof.
  intros Hh. destruct (startswith design_token (strip h)) eqn:E.
  - rewrite validate_accepts; [reflexivity|]. rewrite lstrip_strip.
    rewrite design_token_snoc in *.
    now apply design_starts_like_first_line.
  - apply validate_rejects. rewrite lstrip_strip.
    unfold DemonstrateFixes.starts_design in Hh.
    change (py "## Design") with design_token in Hh.
    rewrite E, orb_false_r in Hh.
    change (py "### Design") with (py "### Desig" ++ [110%N]) in Hh.
    apply (design_starts_like_first_line _ _ _ body) in Hh; [|reflexivity].
    destruct (startswith_inv _ _ Hh) as [x ->].
    apply level3_is_not_header.
Qed.

(** What the extractor returns is accepted by the validator exactly when
    the response contains the header followed by a line feed, or by a
    carriage return and a line feed, or when its first line that begins,
    trimmed, with [## Design] or [### Design] begins with [## Design]. *)
Theorem extraction_valid_iff (response agent_name : str) :
  fst (validate_response_format
         (DemonstrateFixes.extract_design_section response) agent_name)
  = true
  <-> contains header_lf response = true
      \/ contains header_crlf response = true
      \/ exists pre h post,
           split nl response = pre ++ h :: post
           /\ Forall (fun l => DemonstrateFixes.starts_design l = false) pre
           /\ startswith design_token (strip h) = true.
Proof.
  destruct (rebind_cases response)
    as [[b [a [Hresp Hr]]] | [[H1 [b [a [Hresp Hr]]]] | [H1 [H3 Hr]]]].
  - (* the header with a line feed occurs *)
    pose proof (split_header_lf a) as Hs. rewrite <- Hr in Hs.
    rewrite (extract_with_design response [] design_token (split nl a) Hs
               (Forall_nil _) eq_refl).
    rewrite design_valid_iff by reflexivity.
    split; [|reflexivity]. intros _. left.
    apply contains_spec. eauto.
  - (* the header with a carriage return and a line feed occurs *)
    pose proof (split_header_crlf a) as Hs. rewrite <- Hr in Hs.
    rewrite (extract_with_design response [] (design_token ++ [cr])
               (split nl a) Hs (Forall_nil _) eq_refl).
    rewrite design_valid_iff by reflexivity.
    split; [|reflexivity]. intros _. right. left.
    apply contains_spec. eauto.
  - (* neither occurs *)
    rewrite H1, H3.
    destruct (first_design_line (split nl response))
      as [Hnone | [pre [h [rest [Hs [Hpre Hh]]]]]].
    + rewrite extract_unchanged by assumption.
      rewrite (validate_missing _ agent_name (no_design_no_header _ Hnone)).
      split; [discriminate|].
      intros [F | [F | [pre [h [post [Hs [_ Hh]]]]]]]; try discriminate.
      exfalso. apply no_design_no_header in Hnone.
      apply (no_header_line _ Hnone). rewrite Hs.
      now apply header_line_exists.
    + assert (Hs' : split nl (DemonstrateFixes.rebind_response
                                DemonstrateFixes.design_start_patterns
                                response)
                    = pre ++ h :: rest) by now rewrite Hr.
      rewrite (extract_with_design response pre h rest Hs' Hpre Hh).
      rewrite design_valid_iff by exact Hh.
      split.
      * intros E. right. right. exists pre, h, rest. auto.
      * intros [F | [F | [pre' [h' [post' [Hs2 [Hpre' Hh']]]]]]];
          try discriminate.
        (* the two first Design lines are the same line *)
        rewrite Hs in Hs2. clear Hs Hs'.
        revert pre' Hs2 Hpre'.
        induction Hpre as [|l pre Hl Hpre IH]; intros pre' Hs2 Hpre'.
        -- destruct pre' as [|l' pre'].
           ++ cbn [app] in Hs2. now injection Hs2 as -> _.
           ++ cbn [app] in Hs2. injection Hs2 as -> _.
              inversion Hpre' as [|? ? Hd _]; subst. congruence.
        -- destruct pre' as [|l' pre'].
           ++ cbn [app] in Hs2. injection Hs2 as -> _.
              apply header_line_starts_design in Hh'. congruence.
           ++ cbn [app] in Hs2. injection Hs2 as -> Hs2.
              inversion Hpre'; subst. now apply (IH pre').
Qed.

(** ** Where the two extractors agree *)

Lemma split_app_sep_any (sep : char) (a b : str) :
  split sep (a ++ sep :: b) = split sep a ++ split sep b.
Proof.
  induction a as [|c a IH]; cbn [app split].
  - now rewrite N.eqb_refl.
  - destruct (N.eqb c sep); [now rewrite IH|].
    rewrite IH. destruct (split sep a) as [|l ls] eqn:E;
      [now apply split_ne in E | reflexivity].
Qed.

(** The last line of a text that ends with [t] ends with [t], when [t]
    holds no separator. *)
Lemma last_line_suffix (sep : char) (x t : str) :
  ~ In sep t -> exists ls l, split sep (x ++ t) = ls ++ [l ++ t].
Proof.
  intros Ht. induction x as [|c x [ls [l IH]]]; cbn [app split].
  - exists [], []. now apply split_nosep.
  - rewrite IH. destruct (N.eqb c sep).
    + now exists ([] :: ls), l.
    + destruct ls as [|f ls]; cbn [app].
      * now exists [], (c :: l).
      * now exists ((c :: f) :: ls), l.
Qed.

Lemma prefix_up_to_sep (sep : char) (t b y z : str) :
  ~ In sep t -> b ++ sep :: y = t ++ sep :: z ->
  b = t \/ exists w, b = t ++ sep :: w.
Proof.
  revert b; induction t as [|c t IH]; intros b Ht H.
  - destruct b as [|d b]; [now left|].
    cbn [app] in H. injection H as -> _. right. now exists b.
  - destruct b as [|d b]; cbn [app] in H.
    + injection H as <- _. exfalso. apply Ht. now left.
    + injection H as -> H.
      destruct (IH b) as [-> | [w ->]]; [|exact H| |].
      * intros F. apply Ht. now right.
      * now left.
      * right. now exists w.
Qed.

(** [cut] finds the occurrence in front of which no other starts. *)
Lemma cut_first_occurrence (p b a : str) :
  (forall b1 b2, b = b1 ++ b2 -> b2 <> [] ->
     startswith p (b2 ++ p ++ a) = false) ->
  cut p (b ++ p ++ a) = Some (b, a).
Proof.
  induction b as [|c b IH]; intros H; rewrite cut_unfold.
  - cbn [app]. now rewrite startswith_app, skipn_prefix.
  - rewrite (H [] (c :: b) eq_refl) by discriminate.
    cbn [app]. rewrite IH; [reflexivity|].
    intros b1 b2 -> Hb2. now apply (H (c :: b1) b2).
Qed.

Lemma endswith_app (p x : str) : endswith p (x ++ p) = true.
Proof. unfold endswith. rewrite rev_app_distr. apply startswith_app. Qed.

(** An occurrence of the header at the end of a line of the preamble. *)
Lemma header_ends_a_line (pre : list str) (b1 w : str) :
  pre <> [] ->
  Forall (fun l => ~ In nl l) pre ->
  join [nl] pre = b1 ++ design_token ++ w ->
  w = [] \/ (exists w', w = nl :: w') ->
  Exists (fun l => endswith design_token l = true) pre.
Proof.
  intros Hne Hnl Hj Hw.
  assert (Ht : ~ In nl design_token)
    by (unfold design_token, nl; not_in_literal).
  destruct (last_line_suffix nl b1 design_token Ht) as [ls [l Hl]].
  assert (Hpre : exists after, pre = (ls ++ [l ++ design_token]) ++ after).
  { rewrite <- (split_join nl pre Hne Hnl), Hj.
    destruct Hw as [-> | [w' ->]].
    - exists []. now rewrite !app_nil_r.
    - exists (split nl w'). rewrite app_assoc, split_app_sep_any.
      now rewrite Hl. }
  destruct Hpre as [after ->].
  apply Exists_app. left. apply Exists_app. right.
  constructor. apply endswith_app.
Qed.

Lemma rebind_at_cut (s b a : str) :
  cut header_lf s = Some (b, a) ->
  DemonstrateFixes.rebind_response DemonstrateFixes.design_start_patterns s
  = header_lf ++ a.
Proof.
  intros H. unfold DemonstrateFixes.design_start_patterns.
  cbn [DemonstrateFixes.rebind_response]. fold header_lf.
  unfold contains, split_once. now rewrite H.
Qed.

(** When the header line is exactly the header, a line follows it and no
    line in front of it ends with the header, the first start pattern
    cuts the response in front of the header line. *)
Lemma rebind_at_header_line (pre post : list str) :
  post <> [] ->
  Forall (fun l => ~ In nl l) pre ->
  Forall (fun l => endswith design_token l = false) pre ->
  DemonstrateFixes.rebind_response DemonstrateFixes.design_start_patterns
    (join [nl] (pre ++ design_token :: post))
  = join [nl] (design_token :: post).
Proof.
  intros Hpost Hnl Hend.
  assert (Hh : join [nl] (design_token :: post)
               = header_lf ++ join [nl] post).
  { destruct post as [|m ls]; [congruence|].
    rewrite join_cons. unfold header_lf.
    now rewrite <- app_assoc. }
  destruct pre as [|p pre].
  - cbn [app]. rewrite Hh. apply rebind_at_header_lf.
  - rewrite join_app by discriminate. rewrite Hh.
    change (join [nl] (p :: pre) ++ nl :: header_lf ++ join [nl] post)
      with (join [nl] (p :: pre) ++ [nl] ++ header_lf ++ join [nl] post).
    rewrite app_assoc.
    apply rebind_at_cut with (b := join [nl] (p :: pre) ++ [nl]).
    apply cut_first_occurrence. intros b1 b2 Hb Hb2.
    destruct (startswith header_lf (b2 ++ header_lf ++ join [nl] post))
      eqn:E; [|reflexivity].
    exfalso.
    destruct (exists_last Hb2) as [b2' [c ->]].
    rewrite app_assoc in Hb. apply app_inj_tail in Hb as [Hj <-].
    destruct (startswith_inv _ _ E) as [z Hz].
    unfold header_lf at 2 in Hz. rewrite <- !app_assoc in Hz.
    cbn [app] in Hz.
    change (py "## Design") with design_token in Hz.
    assert (Ht : ~ In nl design_token)
      by (unfold design_token, nl; not_in_literal).
    assert (Hw : exists w, b2' = design_token ++ w
                           /\ (w = [] \/ exists w', w = nl :: w')).
    { destruct (prefix_up_to_sep nl design_token b2' _ _ Ht Hz)
        as [-> | [w ->]].
      - exists []. rewrite app_nil_r. auto.
      - exists (nl :: w). eauto. }
    destruct Hw as [w [-> Hw]].
    assert (Hex : Exists (fun l => endswith design_token l = true) (p :: pre))
      by (apply (header_ends_a_line (p :: pre) b1 w);
          [discriminate | exact Hnl | exact Hj | exact Hw]).
    apply Exists_exists in Hex as [l [Hin Hl]].
    rewrite Forall_forall in Hend. rewrite (Hend l Hin) in Hl. discriminate.
Qed.

Lemma header_first_is_header_line (h : str) :
  startswith design_token h = true ->
  startswith design_token (strip h) = true.
Proof.
  intros H. apply startswith_lstrip_strip.
  destruct (startswith_inv _ _ H) as [x ->]. rewrite lstrip_header.
  apply startswith_app.
Qed.

(** A text that begins with the header and ends without white space is
    its own trimmed form. *)
Lemma strip_design_text (h : str) (post : list str) :
  startswith design_token h = true ->
  rstrip (join [nl] (h :: post)) = join [nl] (h :: post) ->
  strip (join [nl] (h :: post)) = join [nl] (h :: post).
Proof.
  intros Hh Hr. unfold strip.
  destruct (join_head h post) as [y Hy].
  destruct (startswith_inv _ _ Hh) as [x Hx].
  rewrite Hy, Hx, <- app_assoc, lstrip_header, app_assoc, <- Hx, <- Hy.
  exact Hr.
Qed.

(** C9, as amended: the two extractors are not the same function, and
    they agree where the second has nothing to cut after the header.
    When the first line that begins, trimmed, with [## Design] begins
    with it without indentation, no later line is a stop line and the
    text ends without white space, both return the text from that line
    on, provided either that line is exactly [## Design], a line follows
    it and no line in front of it ends with [## Design], or neither start
    pattern occurs in the response and no line in front of it begins,
    trimmed, with [### Design].  When no line begins, trimmed, with
    [## Design] or [### Design] and neither start pattern occurs, both
    return the response unchanged; so do they when the first line is
    exactly [## Design], no later line is a stop line and the response
    ends without white space. *)
Theorem extractors_agree_without_meta_heading (response : str) :
  (forall pre h post,
     split nl response = pre ++ h :: post ->
     Forall (fun l => startswith design_token (strip l) = false) pre ->
     startswith design_token h = true ->
     Forall (fun l => is_stop l = false) post ->
     rstrip (join [nl] (h :: post)) = join [nl] (h :: post) ->
     (h = design_token /\ post <> []
      /\ Forall (fun l => endswith design_token l = false) pre)
     \/ (contains header_lf response = false
         /\ contains header_crlf response = false
         /\ Forall (fun l => startswith (py "### Design") (strip l) = false)
              pre) ->
     DemonstrateFixes.extract_design_section response
     = join [nl] (h :: post)
     /\ TestFormatEnforcement.extract_design_section response
        = join [nl] (h :: post))
  /\ (contains header_lf response = false ->
      contains header_crlf response = false ->
      (forall line, In line (split nl response) ->
         DemonstrateFixes.starts_design line = false) ->
      DemonstrateFixes.extract_design_section response = response
      /\ TestFormatEnforcement.extract_design_section response = response)
  /\ (forall body,
        split nl response = design_token :: body ->
        Forall (fun l => is_stop l = false) body ->
        rstrip response = response ->
        DemonstrateFixes.extract_design_section response = response
        /\ TestFormatEnforcement.extract_design_section response = response).
Proof.
  split; [|split].
  - intros pre h post Hs Hpre Hh Hpost Hr Hcase.
    pose proof (header_first_is_header_line h Hh) as Hline.
    split; [|now apply (simple_extract_found response pre h post)].
    pose proof (split_lines_nosep nl response) as Hnl.
    rewrite Hs in Hnl. apply Forall_app in Hnl as [Hnlpre Hnlrest].
    inversion Hnlrest as [|? ? Hnlh Hnlpost]; subst.
    destruct Hcase as [[-> [Hne Hend]] | [H1 [H3 Hno3]]].
    + (* the first pattern cuts in front of the header line *)
      assert (Hb : DemonstrateFixes.rebind_response
                     DemonstrateFixes.design_start_patterns response
                   = join [nl] (design_token :: post)).
      { rewrite <- (join_split nl response), Hs.
        now apply rebind_at_header_line. }
      rewrite (extract_with_design response [] design_token post);
        [| rewrite Hb; apply split_join; [discriminate | now constructor]
         | constructor | reflexivity].
      rewrite (keep_all _ Hpost). now apply strip_design_text.
    + (* no pattern occurs *)
      assert (Hnd : Forall (fun l => DemonstrateFixes.starts_design l = false)
                           pre).
      { rewrite Forall_forall in *. intros l Hl.
        unfold DemonstrateFixes.starts_design.
        change (py "## Design") with design_token.
        now rewrite (Hno3 l Hl), (Hpre l Hl). }
      rewrite (extract_with_design response pre h post);
        [| now rewrite (rebind_none _ H1 H3) | exact Hnd
         | now apply header_line_starts_design].
      rewrite (keep_all _ Hpost). now apply strip_design_text.
  - intros H1 H3 H. apply Forall_forall in H. split.
    + now apply extract_unchanged.
    + apply simple_extract_none. now apply no_design_no_header.
  - intros body Hs Hbody Hr.
    assert (Hj : response = join [nl] (design_token :: body))
      by now rewrite <- Hs, join_split.
    split.
    + assert (Hb : DemonstrateFixes.rebind_response
                     DemonstrateFixes.design_start_patterns response
                   = response).
      { rewrite Hj. destruct body as [|m ls]; [reflexivity|].
        rewrite join_cons.
        change (design_token ++ nl :: join [nl] (m :: ls))
          with (header_lf ++ join [nl] (m :: ls)).
        apply rebind_at_header_lf. }
      rewrite (extract_with_design response [] design_token body);
        [| now rewrite Hb | constructor | reflexivity].
      rewrite (keep_all _ Hbody), <- Hj. unfold strip.
      destruct (join_head design_token body) as [y Hy].
      rewrite Hj, Hy, lstrip_header, <- Hy, <- Hj. exact Hr.
    + rewrite (simple_extract_found response [] design_token body Hs);
        [now rewrite <- Hj | constructor | reflexivity].
Qed.

Lemma extractors_agree_without_meta_heading_witness :
  DemonstrateFixes.extract_design_section
    (py "I disagree with your approach." ++ [nl; nl] ++ py "## Design"
     ++ [nl; nl] ++ py "# Clean Design" ++ [nl; nl]
     ++ py "The actual content.")
  = py "## Design" ++ [nl; nl] ++ py "# Clean Design" ++ [nl; nl]
    ++ py "The actual content."
  /\ TestFormatEnforcement.extract_design_section
       (py "I disagree with your approach." ++ [nl; nl] ++ py "## Design"
        ++ [nl; nl] ++ py "# Clean Design" ++ [nl; nl]
        ++ py "The actual content.")
     = py "## Design" ++ [nl; nl] ++ py "# Clean Design" ++ [nl; nl]
       ++ py "The actual content.".
Proof.
  apply (proj1 (extractors_agree_without_meta_heading
    (py "I disagree with your approach." ++ [nl; nl] ++ py "## Design"
     ++ [nl; nl] ++ py "# Clean Design" ++ [nl; nl]
     ++ py "The actual content."))
    [py "I disagree with your approach."; []] (py "## Design")
    [[]; py "# Clean Design"; []; py "The actual content."]).
  - reflexivity.
  - repeat constructor.
  - reflexivity.
  - repeat constructor.
  - reflexivity.
  - left. split; [reflexivity|]. split; [discriminate|].
    repeat constructor.
Defined.
